(** * Crop-geometry engine of the image editor

    A shallow embedding of [App.jsx] (the crop-geometry functions and the
    event handlers of the [App] component) and of the parts of
    [components/ImageEditor.jsx] that gate export, the compatibility report
    and the size label.

    Numbers.  A JavaScript number is an IEEE-754 binary64 value, and so is
    a [float] here: [+], [-], [*] and [/] round to nearest (ties to even)
    as the source's do, a division by zero gives an infinity or NaN, and
    the comparisons are the IEEE ones (every comparison with NaN is false,
    [+0] and [-0] are equal).  A decimal literal of the source ([0.6],
    [1.91], [0.001]) is the binary64 value nearest to it.  [Math.max],
    [Math.min] and [Math.round] follow ECMAScript on NaN and on the two
    zeros.

    Absent values.  A state variable or argument that may be [undefined]
    or [null] has type [js A]; an object field that may be missing has
    type [option float], read with the [??] of the source. *)

From Stdlib Require Import Floats ZArith Lia.
From Stdlib Require Import String Ascii Bool List.
Import ListNotations.

Set Warnings "-inexact-float".

Local Open Scope float_scope.

(** ** JavaScript values *)

Inductive js (A : Type) : Type :=
| undefined : js A
| null : js A
| val : A -> js A.

Arguments undefined {A}.
Arguments null {A}.
Arguments val {A} _.

(** [a || b] on values that are objects when present: an object is truthy,
    [undefined] and [null] are falsy. *)
Definition js_or {A : Type} (a b : js A) : js A :=
  match a with
  | val _ => a
  | _ => b
  end.

(** [v ?? d] *)
Definition nullish {A : Type} (v : option A) (d : A) : A :=
  match v with
  | Some a => a
  | None => d
  end.

Notation "v ?? d" := (nullish v d) (at level 45, left associativity).

(** [a > b] and [a >= b] *)
Notation "a >? b" := (PrimFloat.ltb b a)
  (at level 70, no associativity) : float_scope.
Notation "a >=? b" := (PrimFloat.leb b a)
  (at level 70, no associativity) : float_scope.

(** Truthiness of a number: every number but [+0], [-0] and [NaN]. *)
Definition truthy (q : float) : bool := negb (is_zero q || is_nan q).

(** Truthiness of a field read [o.f], where the field may be missing. *)
Definition truthy_field (v : option float) : bool :=
  match v with
  | Some q => truthy q
  | None => false
  end.

(** [o?.f] for an object [o] that may be [undefined] or [null]. *)
Definition opt_chain {A : Type} (o : js A) (f : A -> option float)
  : option float :=
  match o with
  | val a => f a
  | _ => None
  end.

(** [Object.is(a, -0)] and [Object.is(a, +0)] *)
Definition is_neg_zero (a : float) : bool := PrimFloat.Leibniz.eqb a neg_zero.
Definition is_pos_zero (a : float) : bool := PrimFloat.Leibniz.eqb a 0.

(** [Math.max(a, b)]: NaN when either is NaN; [+0] counts as larger than
    [-0]. *)
Definition Math_max (a b : float) : float :=
  if is_nan a || is_nan b then nan
  else if is_neg_zero a && is_pos_zero b then b
  else if a <? b then b else a.

(** [Math.min(a, b)]: NaN when either is NaN; [-0] counts as smaller than
    [+0]. *)
Definition Math_min (a b : float) : float :=
  if is_nan a || is_nan b then nan
  else if is_pos_zero a && is_neg_zero b then b
  else if b <? a then b else a.

(** The binary64 value of an integer that has one. *)
Definition of_integer (z : Z) : float :=
  SF2Prim (binary_normalize prec emax z 0 false).

(** [Math.round(x)]: the integer nearest to [x], a tie going up; a result
    of zero keeps the sign of [x]; an infinity, NaN and a zero are returned
    as they are.  A finite [x] is [m * 2^e] for integers [m] and [e]: it is
    an integer already when [e >= 0], and otherwise the result is the floor
    of [(2 * m + 2^(-e)) / 2^(1 - e)]. *)
Definition Math_round (x : float) : float :=
  match Prim2SF x with
  | S754_finite s m e =>
      if (0 <=? e)%Z then x
      else
        let k := (2 ^ (- e))%Z in
        let n := if s then Z.neg m else Z.pos m in
        let z := ((2 * n + k) / (2 * k))%Z in
        if (z =? 0)%Z then (if s then neg_zero else 0)
        else of_integer z
  | _ => x
  end.

(** ** Rectangles *)

Module Rect.

(** [{ unit, x, y, width, height }]; frames and crop rectangles share the
    shape.  [unit] is ['px'] on the rectangles the generators build and
    missing on the ones [clampPixelCropToFrame] builds. *)
Record t : Type := mk {
  unit : option string;
  x : option float;
  y : option float;
  width : option float;
  height : option float
}.

(** The four numbers of a rectangle, missing fields read as [0]. *)
Definition X (r : t) : float := x r ?? 0.
Definition Y (r : t) : float := y r ?? 0.
Definition W (r : t) : float := width r ?? 0.
Definition H (r : t) : float := height r ?? 0.

(** A rectangle with the four numbers given and no [unit]. *)
Definition make (x0 y0 w0 h0 : float) : t :=
  mk None (Some x0) (Some y0) (Some w0) (Some h0).

(** The same rectangle: the same four numbers, compared as [===] compares
    numbers. *)
Definition equiv (r s : t) : Prop :=
  (X r =? X s) = true /\ (Y r =? Y s) = true /\
  (W r =? W s) = true /\ (H r =? H s) = true.


End Rect.

(** ** App.jsx: constants *)

Record Preset : Type := mkPreset {
  id : string;
  label : string;
  aspect : option float
}.

Definition ASPECT_PRESETS : list Preset :=
  [ mkPreset "free" "Свободно" None;
    mkPreset "square" "Квадрат" (Some (1 / 1));
    mkPreset "16:9" "16:9" (Some (16 / 9));
    mkPreset "16:10" "16:10" (Some (16 / 10));
    mkPreset "4:3" "4:3" (Some (4 / 3));
    mkPreset "3:4" "3:4" (Some (3 / 4)) ].

(** [ASPECT_PRESETS[0]] *)
Definition ASPECT_PRESETS_0 : Preset := mkPreset "free" "Свободно" None.

Definition INSTAGRAM_MIN_ASPECT : float := 4 / 5.
Definition INSTAGRAM_MAX_ASPECT : float := 1.91.
Definition EPSILON : float := 0.001.
Definition INSTAGRAM_COMPATIBILITY_KEY : string := "instagram".

(** ** App.jsx: the geometry functions *)

Definition createCenteredCropInFrame (frame : Rect.t) (aspect : option float)
  : option Rect.t :=
  let frameX := Rect.x frame ?? 0 in
  let frameY := Rect.y frame ?? 0 in
  let frameWidth := Rect.width frame ?? 0 in
  let frameHeight := Rect.height frame ?? 0 in
  if negb (truthy frameWidth) || negb (truthy frameHeight) then None
  else if negb (truthy_field aspect) then
    let width := frameWidth * 0.6 in
    let height := frameHeight * 0.6 in
    Some (Rect.mk (Some "px"%string)
            (Some (frameX + (frameWidth - width) / 2))
            (Some (frameY + (frameHeight - height) / 2))
            (Some width)
            (Some height))
  else
    let aspect := aspect ?? 0 in
    let safeArea := 0.8 in
    let width := frameWidth * safeArea in
    let height := width / aspect in
    let '(width, height) :=
      if height >? frameHeight * safeArea then
        let height := frameHeight * safeArea in
        let width := height * aspect in
        (width, height)
      else (width, height) in
    Some (Rect.mk (Some "px"%string)
            (Some (frameX + (frameWidth - width) / 2))
            (Some (frameY + (frameHeight - height) / 2))
            (Some width)
            (Some height)).

Definition createInstagramCompatibleCrop (frame : Rect.t) : Rect.t :=
  let frameX := Rect.x frame ?? 0 in
  let frameY := Rect.y frame ?? 0 in
  let frameWidth := Rect.width frame ?? 0 in
  let frameHeight := Rect.height frame ?? 0 in
  let imageAspect := frameWidth / frameHeight in
  if (imageAspect >=? INSTAGRAM_MIN_ASPECT - EPSILON) &&
     (imageAspect <=? INSTAGRAM_MAX_ASPECT + EPSILON)
  then
    Rect.mk (Some "px"%string)
      (Some frameX) (Some frameY) (Some frameWidth) (Some frameHeight)
  else
    if imageAspect <? INSTAGRAM_MIN_ASPECT then
      let cropHeight := frameWidth / INSTAGRAM_MIN_ASPECT in
      let cropY := frameY + (frameHeight - cropHeight) / 2 in
      Rect.mk (Some "px"%string)
        (Some frameX) (Some cropY) (Some frameWidth) (Some cropHeight)
    else
      let cropWidth := frameHeight * INSTAGRAM_MAX_ASPECT in
      let cropX := frameX + (frameWidth - cropWidth) / 2 in
      Rect.mk (Some "px"%string)
        (Some cropX) (Some frameY) (Some cropWidth) (Some frameHeight).

Definition clampPixelCropToFrame (crop frame : Rect.t) : Rect.t :=
  let cropX := Rect.x crop ?? 0 in
  let cropY := Rect.y crop ?? 0 in
  let cropWidth := Rect.width crop ?? 0 in
  let cropHeight := Rect.height crop ?? 0 in
  let frameX := Rect.x frame ?? 0 in
  let frameY := Rect.y frame ?? 0 in
  let frameWidth := Rect.width frame ?? 0 in
  let frameHeight := Rect.height frame ?? 0 in
  let x1 := Math_max frameX cropX in
  let y1 := Math_max frameY cropY in
  let x2 := Math_min (frameX + frameWidth) (cropX + cropWidth) in
  let y2 := Math_min (frameY + frameHeight) (cropY + cropHeight) in
  Rect.mk None
    (Some x1)
    (Some y1)
    (Some (Math_max 0 (x2 - x1)))
    (Some (Math_max 0 (y2 - y1))).

(** ** App.jsx: the component state *)

(** What the handlers read of the [<img>] element. *)
Module Img.
Record t : Type := mk { width : float; height : float }.
End Img.

(** The [useState] cells of [App], and the blob URLs handed to
    [URL.revokeObjectURL] so far (latest first). *)
Record State : Type := mkState {
  source : js string;
  activePreset : Preset;
  crop : js Rect.t;
  completedCrop : js Rect.t;
  livePixelCrop : js Rect.t;
  imageFrame : js Rect.t;
  isErrorModalOpen : bool;
  revoked : list string
}.

Definition setSource (v : js string) (s : State) : State :=
  mkState v (activePreset s) (crop s) (completedCrop s) (livePixelCrop s)
    (imageFrame s) (isErrorModalOpen s) (revoked s).
Definition setActivePreset (v : Preset) (s : State) : State :=
  mkState (source s) v (crop s) (completedCrop s) (livePixelCrop s)
    (imageFrame s) (isErrorModalOpen s) (revoked s).
Definition setCrop (v : js Rect.t) (s : State) : State :=
  mkState (source s) (activePreset s) v (completedCrop s) (livePixelCrop s)
    (imageFrame s) (isErrorModalOpen s) (revoked s).
Definition setCompletedCrop (v : js Rect.t) (s : State) : State :=
  mkState (source s) (activePreset s) (crop s) v (livePixelCrop s)
    (imageFrame s) (isErrorModalOpen s) (revoked s).
Definition setLivePixelCrop (v : js Rect.t) (s : State) : State :=
  mkState (source s) (activePreset s) (crop s) (completedCrop s) v
    (imageFrame s) (isErrorModalOpen s) (revoked s).
Definition setImageFrame (v : js Rect.t) (s : State) : State :=
  mkState (source s) (activePreset s) (crop s) (completedCrop s)
    (livePixelCrop s) v (isErrorModalOpen s) (revoked s).
Definition setIsErrorModalOpen (v : bool) (s : State) : State :=
  mkState (source s) (activePreset s) (crop s) (completedCrop s)
    (livePixelCrop s) (imageFrame s) v (revoked s).

(** [URL.revokeObjectURL(url)] *)
Definition revokeObjectURL (url : string) (s : State) : State :=
  mkState (source s) (activePreset s) (crop s) (completedCrop s)
    (livePixelCrop s) (imageFrame s) (isErrorModalOpen s) (url :: revoked s).

(** Statements of a handler, in the order of the source. *)
Notation "s |> f" := (f s) (at level 50, left associativity, only parsing).

(** Truthiness of [source]: a non-empty string. *)
Definition truthy_source (v : js string) : bool :=
  match v with
  | val u => negb (String.eqb u "")
  | _ => false
  end.

(** [if (source) URL.revokeObjectURL(source)] *)
Definition revokeIfSet (v : js string) (s : State) : State :=
  match v with
  | val u => if truthy_source v then revokeObjectURL u s else s
  | _ => s
  end.

(** [String.prototype.toLowerCase] on the ASCII letters; the other bytes of
    the string stay. *)
Definition toLowerCase_ascii (c : ascii) : ascii :=
  let n := nat_of_ascii c in
  if (65 <=? n)%nat && (n <=? 90)%nat then ascii_of_nat (n + 32) else c.

Fixpoint toLowerCase (s : string) : string :=
  match s with
  | EmptyString => EmptyString
  | String c r => String (toLowerCase_ascii c) (toLowerCase r)
  end.

(** [clampPixelCropToFrame(c, f)] where the guards before the call have
    established that [c] and [f] are objects. *)
Definition clampPresent (c f : js Rect.t) : js Rect.t :=
  match c, f with
  | val c, val f => val (clampPixelCropToFrame c f)
  | _, _ => undefined
  end.

Section App.

(** [searchParams.get('compatibility')] and [searchParams.get('error')];
    [None] is [null], the parameter is absent. *)
Variable compatibilityParam : option string.
Variable errorParam : option string.

(** [searchParams.get('compatibility')?.toLowerCase() || null] *)
Definition compatibilityMode : js string :=
  match compatibilityParam with
  | Some v =>
      let lower := toLowerCase v in
      if String.eqb lower "" then null else val lower
  | None => null
  end.

Definition instagramCompatibilityEnabled : bool :=
  match compatibilityMode with
  | val m => String.eqb m INSTAGRAM_COMPATIBILITY_KEY
  | _ => false
  end.

Definition hasErrorParam : bool :=
  match errorParam with
  | Some v => String.eqb v "1"
  | None => false
  end.

(** The state of the first render. *)
Definition initialState : State :=
  mkState null ASPECT_PRESETS_0 undefined null null null hasErrorParam [].

Definition effectiveCrop (s : State) : js Rect.t :=
  if negb (truthy_field (opt_chain (imageFrame s) Rect.width)) ||
     negb (truthy_field (opt_chain (imageFrame s) Rect.height))
  then null
  else if truthy_field (opt_chain (livePixelCrop s) Rect.width) &&
          truthy_field (opt_chain (livePixelCrop s) Rect.height)
  then clampPresent (livePixelCrop s) (imageFrame s)
  else if truthy_field (opt_chain (completedCrop s) Rect.width) &&
          truthy_field (opt_chain (completedCrop s) Rect.height)
  then clampPresent (completedCrop s) (imageFrame s)
  else null.

(** [null] is [None]. *)
Definition currentAspect (s : State) : option float :=
  if negb (truthy_field (opt_chain (effectiveCrop s) Rect.width)) ||
     negb (truthy_field (opt_chain (effectiveCrop s) Rect.height))
  then None
  else
    match effectiveCrop s with
    | val e => Some (Rect.W e / Rect.H e)
    | _ => None
    end.

Definition instagramCompatible (s : State) : bool :=
  if negb (truthy_source (source s)) || negb (truthy_field (currentAspect s))
  then false
  else
    let a := currentAspect s ?? 0 in
    (a >=? INSTAGRAM_MIN_ASPECT - EPSILON) &&
    (a <=? INSTAGRAM_MAX_ASPECT + EPSILON).

Definition handleImageLoaded (img : Img.t) (frame : js Rect.t) (s : State)
  : State :=
  let nextFrame :=
    match frame with
    | val f => f
    | _ => Rect.mk None (Some 0) (Some 0)
             (Some (Img.width img)) (Some (Img.height img))
    end in
  let s := s |> setImageFrame (val nextFrame) in
  if instagramCompatibilityEnabled then
    let nextCrop := createInstagramCompatibleCrop nextFrame in
    s |> setActivePreset ASPECT_PRESETS_0
      |> setCrop (val nextCrop)
      |> setCompletedCrop null
      |> setLivePixelCrop (val nextCrop)
  else
    match createCenteredCropInFrame nextFrame (aspect (activePreset s)) with
    | None => s
    | Some nextCrop =>
        s |> setCrop (val nextCrop)
          |> setCompletedCrop null
          |> setLivePixelCrop (val nextCrop)
    end.

Definition handlePresetChange (preset : Preset) (imageRef : js Img.t)
    (frame : js Rect.t) (s : State) : State :=
  let imageFrame0 := imageFrame s in
  let s := s |> setActivePreset preset in
  let targetFrame := js_or frame imageFrame0 in
  let fromTarget :=
    match targetFrame with
    | val t =>
        if truthy_field (Rect.width t) && truthy_field (Rect.height t)
        then createCenteredCropInFrame t (aspect preset)
        else None
    | _ => None
    end in
  match fromTarget with
  | Some nextCrop =>
      s |> setCrop (val nextCrop)
        |> setCompletedCrop null
        |> setLivePixelCrop (val nextCrop)
  | None =>
      match imageRef with
      | val i =>
          if negb (truthy (Img.width i)) || negb (truthy (Img.height i))
          then s
          else
            let fallbackFrame :=
              Rect.mk None (Some 0) (Some 0)
                (Some (Img.width i)) (Some (Img.height i)) in
            match createCenteredCropInFrame fallbackFrame (aspect preset) with
            | None => s
            | Some nextCrop =>
                s |> setCrop (val nextCrop)
                  |> setCompletedCrop null
                  |> setLivePixelCrop (val nextCrop)
                  |> setImageFrame (val fallbackFrame)
            end
      | _ => s
      end
  end.

Definition handleCropChange (pixelCrop percentCrop : Rect.t)
    (frame : js Rect.t) (s : State) : State :=
  let activeFrame := js_or frame (imageFrame s) in
  let nextCrop :=
    match activeFrame with
    | val f => clampPixelCropToFrame pixelCrop f
    | _ => pixelCrop
    end in
  let s := s |> setCrop (val nextCrop) |> setLivePixelCrop (val nextCrop) in
  match activeFrame with
  | val _ => s |> setImageFrame activeFrame
  | _ => s
  end.

Definition handleCropComplete (pixelCrop : Rect.t) (frame : js Rect.t)
    (s : State) : State :=
  let activeFrame := js_or frame (imageFrame s) in
  let nextCrop :=
    match activeFrame with
    | val f => clampPixelCropToFrame pixelCrop f
    | _ => pixelCrop
    end in
  let s := s |> setCompletedCrop (val nextCrop)
             |> setLivePixelCrop (val nextCrop) in
  match activeFrame with
  | val _ => s |> setImageFrame activeFrame
  | _ => s
  end.

(** [file] is the chosen file, if any; [nextUrl] is what
    [URL.createObjectURL(file)] returns. *)
Definition handleImageSelect (file : js string) (nextUrl : string)
    (s : State) : State :=
  match file with
  | val _ =>
      s |> revokeIfSet (source s)
        |> setSource (val nextUrl)
        |> setCompletedCrop null
        |> setLivePixelCrop null
        |> setImageFrame null
  | _ => s
  end.

Definition handleReset (s : State) : State :=
  s |> revokeIfSet (source s)
    |> setSource null
    |> setCrop undefined
    |> setCompletedCrop null
    |> setLivePixelCrop null
    |> setActivePreset ASPECT_PRESETS_0
    |> setImageFrame null.

(** The cleanup of the [useEffect] on [source]: it runs when a render
    replaces [source], with the [source] of the render before. *)
Definition sourceEffectCleanup (before after : State) : State :=
  match source before, source after with
  | val u, val v => if String.eqb u v then after else revokeIfSet (val u) after
  | val u, _ => revokeIfSet (val u) after
  | _, _ => after
  end.

(** The events of the engine (spec, external interfaces), and the close
    button of the error dialog ([onCloseErrorModal]). *)
Inductive Event : Type :=
| imageSelected (file : js string) (nextUrl : string)
| imageLoaded (img : Img.t) (frame : js Rect.t)
| presetChanged (preset : Preset) (imageRef : js Img.t) (frame : js Rect.t)
| cropDragged (pixelCrop percentCrop : Rect.t) (frame : js Rect.t)
| cropCommitted (pixelCrop : Rect.t) (frame : js Rect.t)
| reset
| closeErrorModal.

Definition handle (e : Event) (s : State) : State :=
  match e with
  | imageSelected file nextUrl => handleImageSelect file nextUrl s
  | imageLoaded img frame => handleImageLoaded img frame s
  | presetChanged preset imageRef frame =>
      handlePresetChange preset imageRef frame s
  | cropDragged pixelCrop percentCrop frame =>
      handleCropChange pixelCrop percentCrop frame s
  | cropCommitted pixelCrop frame => handleCropComplete pixelCrop frame s
  | reset => handleReset s
  | closeErrorModal => s |> setIsErrorModalOpen false
  end.

(** One event: the handler runs on the state of the current render, then
    React renders the new state and runs the effect cleanup. *)
Definition step (s : State) (e : Event) : State :=
  sourceEffectCleanup s (handle e s).

Definition run (s : State) (es : list Event) : State :=
  fold_left step es s.

(** The queries of the engine (spec, external interfaces). *)
Definition currentRectangle (s : State) : js Rect.t := crop s.
Definition completedRectangle (s : State) : js Rect.t := completedCrop s.
Definition effectiveAspect (s : State) : option float := currentAspect s.
Definition isCompatible (s : State) : bool := instagramCompatible s.

End App.

(** ** components/ImageEditor.jsx *)

Definition disabledSave (source : js string) (completedCrop : js Rect.t)
  : bool :=
  if negb (truthy_source source) ||
     negb (truthy_field (opt_chain completedCrop Rect.width)) ||
     negb (truthy_field (opt_chain completedCrop Rect.height))
  then true
  else
    (opt_chain completedCrop Rect.width ?? 0 <? 2) ||
    (opt_chain completedCrop Rect.height ?? 0 <? 2).

(** The compatibility block of the sidebar: the icon ([ok] or [fail]) and
    the aspect shown after the label of the current aspect ([None] is the
    dash). *)
Record CompatibilityBlock : Type := mkCompatibilityBlock {
  icon_ok : bool;
  aspectLabel : option float
}.

(** [{showCompatibility && (<div className="compatibility-block"> ...)}]:
    [None] when nothing is rendered. *)
Definition compatibilityBlock (showCompatibility instagramCompatible : bool)
    (currentAspect : option float) : option CompatibilityBlock :=
  if showCompatibility then
    Some (mkCompatibilityBlock instagramCompatible
            (if truthy_field currentAspect then currentAspect else None))
  else None.

(** What [App] hands to [ImageEditor] and what [ImageEditor] derives from
    it. *)
Definition renderedCompatibility (compatibilityParam : option string)
    (s : State) : option CompatibilityBlock :=
  compatibilityBlock (instagramCompatibilityEnabled compatibilityParam)
    (instagramCompatible s) (currentAspect s).

Definition renderedDisabledSave (s : State) : bool :=
  disabledSave (source s) (completedCrop s).

(** The text of the size label: the literal ['0 x 0'], or the template
    literal with its two numbers.  How a number is written out in decimal is
    left to [Number.prototype.toString]; the label keeps the numbers. *)
Inductive SizeLabel : Type :=
| literal (text : string)
| template_x (w h : float).

Definition formatSize (crop : js Rect.t) : SizeLabel :=
  if negb (truthy_field (opt_chain crop Rect.width)) ||
     negb (truthy_field (opt_chain crop Rect.height))
  then literal "0 x 0"
  else
    template_x (Math_round (opt_chain crop Rect.width ?? 0))
               (Math_round (opt_chain crop Rect.height ?? 0)).

(** The size shown in the sidebar: [formatSize(completedCrop || crop)]. *)
Definition renderedSize (s : State) : SizeLabel :=
  formatSize (js_or (completedCrop s) (crop s)).

(** * Vocabulary of the specification *)

(** A number that [!q] takes for absent: zero or NaN; and a number that is
    neither. *)
Definition falsy (q : float) : Prop := (q =? 0) = true \/ is_nan q = true.
Definition nonzero (q : float) : Prop := (q =? 0) = false /\ is_nan q = false.

(** A rectangle variable holds nothing usable: it is undefined or null, or
    the width or the height of its rectangle is zero, NaN or missing. *)
Definition degenerate (v : js Rect.t) : Prop :=
  match v with
  | val r => falsy (Rect.W r) \/ falsy (Rect.H r)
  | _ => True
  end.

(** The width and the height of the rectangle are non-zero numbers. *)
Definition proper (r : Rect.t) : Prop :=
  nonzero (Rect.W r) /\ nonzero (Rect.H r).

(** The aspect of a rectangle as the tracker reports it: width / height,
    null when either is zero or NaN. *)
Definition reportedAspect (r : Rect.t) : option float :=
  if truthy (Rect.W r) && truthy (Rect.H r)
  then Some (Rect.W r / Rect.H r)
  else None.

(** The same aspect: both null, or the same number. *)
Definition same_aspect (a b : option float) : Prop :=
  match a, b with
  | Some p, Some q => (p =? q) = true
  | None, None => True
  | _, _ => False
  end.

(** The state after a drag commit followed by a drag update. *)
Definition afterCommitThenDrag (compatibilityParam : option string)
    (s0 : State) (committed : Rect.t) (committedFrame : js Rect.t)
    (dragged percentCrop : Rect.t) (draggedFrame : js Rect.t) : State :=
  run compatibilityParam s0
    [ cropCommitted committed committedFrame;
      cropDragged dragged percentCrop draggedFrame ].

(** A variable holds no object: it is undefined or null. *)
Definition absent {A : Type} (v : js A) : Prop :=
  match v with
  | val _ => False
  | _ => True
  end.

(** The frame an image-loaded event works with: the frame it is given, or
    the image's own size at the origin. *)
Definition loadedFrame (img : Img.t) (frame : js Rect.t) : Rect.t :=
  match frame with
  | val f => f
  | _ => Rect.mk None (Some 0) (Some 0)
           (Some (Img.width img)) (Some (Img.height img))
  end.

(** The event is a drag commit. *)
Definition is_commit (e : Event) : bool :=
  match e with
  | cropCommitted _ _ => true
  | _ => false
  end.

(** The cells other than [crop] are null or present, not undefined, and a
    completed rectangle comes with a live one. *)
Definition well_formed (s : State) : Prop :=
  completedCrop s <> undefined /\
  livePixelCrop s <> undefined /\
  imageFrame s <> undefined /\
  source s <> undefined /\
  ((exists c, completedCrop s = val c) ->
   exists l, livePixelCrop s = val l).

(** ** The order of the binary64 numbers *)

(** The place of a binary64 value in the order of the numbers: the two
    zeros at 0, a positive [m * 2^e] at [(e + 1075) * 2^53 + m], the
    infinities beyond every finite number, and the negative numbers
    mirrored.  NaN has no place in the order (it is given 0). *)
Definition rank (x : spec_float) : Z :=
  match x with
  | S754_nan => 0
  | S754_zero _ => 0
  | S754_infinity false => 2047 * 2 ^ 53
  | S754_infinity true => - (2047 * 2 ^ 53)
  | S754_finite false m e => (e + 1075) * 2 ^ 53 + Z.pos m
  | S754_finite true m e => - ((e + 1075) * 2 ^ 53 + Z.pos m)
  end.

(** 1 on NaN, 0 on a number. *)
Definition nanflag (x : spec_float) : Z :=
  match x with
  | S754_nan => 1
  | _ => 0
  end.

(** 1 on [-0], 0 elsewhere. *)
Definition negzero (x : spec_float) : Z :=
  match x with
  | S754_zero true => 1
  | _ => 0
  end.

Definition ord64 (a : float) : Z := rank (Prim2SF a).
Definition nan64 (a : float) : Z := nanflag (Prim2SF a).
Definition neg064 (a : float) : Z := negzero (Prim2SF a).

(** Marks the values whose range is already among the hypotheses. *)
Definition ranged (a : float) : Prop := True.

(** * Inputs of the examples *)

Definition frame_100x100 : Rect.t := Rect.make 0 0 100 100.
Definition frame_200x100 : Rect.t := Rect.make 0 0 200 100.
Definition frame_1000x500 : Rect.t := Rect.make 0 0 1000 500.
Definition frame_1000x600 : Rect.t := Rect.make 0 0 1000 600.
Definition frame_400x1000 : Rect.t := Rect.make 0 0 400 1000.
Definition frame_2000x500 : Rect.t := Rect.make 0 0 2000 500.
Definition frame_0x100 : Rect.t := Rect.make 0 0 0 100.
Definition frame_100x0 : Rect.t := Rect.make 0 0 100 0.
Definition frame_0x0 : Rect.t := Rect.make 0 0 0 0.



(** A frame and a candidate with fractional coordinates. *)
Definition frame_fractional : Rect.t := Rect.make 15.4 13.95 105.73 1913.17.
Definition crop_fractional : Rect.t := Rect.make 57.13 815.65 131.28 3448.45.


(** Rectangles for the frame 100 x 100. *)
Definition rect_50x20 : Rect.t := Rect.make 10 10 50 20.
Definition rect_0x30 : Rect.t := Rect.make 10 10 0 30.
Definition rect_30x30 : Rect.t := Rect.make 20 20 30 30.

Definition img_0x100 : Img.t := Img.mk 0 100.
Definition img_400x1000 : Img.t := Img.mk 400 1000.
Definition img_0x0 : Img.t := Img.mk 0 0.

(** The square preset of the catalogue. *)
Definition square_preset : Preset := mkPreset "square" "Квадрат" (Some (1 / 1)).

(** A state with an image selected and nothing else. *)
Definition state_with_source : State :=
  mkState (val "blob:1"%string) ASPECT_PRESETS_0 undefined null null null
    false [].

(** A frame of zero height under proper live and completed rectangles. *)
Definition state_zero_frame : State :=
  mkState (val "blob:1"%string) ASPECT_PRESETS_0 (val rect_30x30)
    (val rect_50x20) (val rect_30x30) (val frame_100x0) false [].

(** A live rectangle of zero width over a proper completed rectangle. *)
Definition state_zero_live : State :=
  mkState (val "blob:1"%string) ASPECT_PRESETS_0 (val rect_0x30)
    (val rect_50x20) (val rect_0x30) (val frame_100x100) false [].

(** A state with an image and the live rectangle [r] in a frame that
    holds it. *)
Definition state_with_live (r : Rect.t) : State :=
  mkState (val "blob:1"%string) ASPECT_PRESETS_0 (val r) null (val r)
    (val (Rect.make 0 0 20000 20000)) false [].

(** A state whose effective aspect, 30 / 30, is within the envelope. *)
Definition state_square_live : State :=
  mkState (val "blob:1"%string) ASPECT_PRESETS_0 (val rect_30x30) null
    (val rect_30x30) (val frame_100x100) false [].

(** * Properties *)

(** ** The order of the binary64 numbers *)

Lemma digits2_pos_bound (m : positive) :
  (Z.pos m < 2 ^ Z.pos (digits2_pos m))%Z.
Proof.
  induction m as [m IH | m IH | ]; cbn [digits2_pos].
  - rewrite Pos2Z.inj_succ, Z.pow_succ_r by lia. lia.
  - rewrite Pos2Z.inj_succ, Z.pow_succ_r by lia. lia.
  - reflexivity.
Qed.

(** A finite binary64 value has a mantissa below 2^53 and an exponent
    between -1074 and 971. *)
Lemma valid_finite (s : bool) (m : positive) (e : Z) :
  valid_binary (S754_finite s m e) = true ->
  (Z.pos m < 2 ^ 53 /\ -1074 <= e <= 971)%Z.
Proof.
  cbn [SpecFloat.valid_binary].
  unfold bounded, canonical_mantissa, fexp, SpecFloat.emin, emax, prec.
  intros H. apply andb_true_iff in H. destruct H as (H1 & H2).
  apply Z.eqb_eq in H1. apply Z.leb_le in H2.
  pose proof (digits2_pos_bound m) as B.
  assert (D : (Z.pos (digits2_pos m) <= 53)%Z) by lia.
  split; [ | lia ].
  eapply Z.lt_le_trans; [ exact B | ].
  apply Z.pow_le_mono_r; lia.
Qed.

Ltac cmp_lia :=
  first [ apply Z.compare_eq_iff; lia
        | apply Z.compare_lt_iff; lia
        | apply Z.compare_gt_iff; lia ].

(** On numbers, the IEEE comparison is the comparison of the ranks. *)
Lemma SFcompare_rank (x y : spec_float) :
  valid_binary x = true -> valid_binary y = true ->
  nanflag x = 0%Z -> nanflag y = 0%Z ->
  SFcompare x y = Some (Z.compare (rank x) (rank y)).
Proof.
  intros Vx Vy Nx Ny.
  destruct x as [s | s | | s m e]; try discriminate Nx;
  destruct y as [s' | s' | | s' m' e']; try discriminate Ny;
    try (apply valid_finite in Vx); try (apply valid_finite in Vy);
    try destruct s; try destruct s'; cbn [SFcompare rank]; f_equal; symmetry;
    change (2 ^ 53)%Z with 9007199254740992%Z in *;
    try reflexivity; try cmp_lia;
    change (Pos.compare_cont Eq m m') with (Pos.compare m m');
    destruct (Z.compare_spec e e') as [E | E | E];
    destruct (Pos.compare_spec m m') as [F | F | F];
    cbn [CompOpp]; try subst e'; try subst m'; cmp_lia.
Qed.

Lemma rank_inj (x y : spec_float) :
  valid_binary x = true -> valid_binary y = true ->
  nanflag x = nanflag y -> rank x = rank y -> negzero x = negzero y -> x = y.
Proof.
  intros Vx Vy.
  destruct x as [s | s | | s m e];
  destruct y as [s' | s' | | s' m' e'];
    try (apply valid_finite in Vx); try (apply valid_finite in Vy);
    try destruct s; try destruct s'; cbn [nanflag rank negzero];
    change (2 ^ 53)%Z with 9007199254740992%Z in *;
    intros Hn Hr Hz; try reflexivity; try discriminate; try lia.
  - assert (e = e') by lia. subst e'.
    assert (Z.pos m = Z.pos m') by lia. congruence.
  - assert (e = e') by lia. subst e'.
    assert (Z.pos m = Z.pos m') by lia. congruence.
Qed.

Lemma rank_bound (x : spec_float) :
  valid_binary x = true ->
  (- 18437736874454810624 <= rank x <= 18437736874454810624)%Z.
Proof.
  intros V. destruct x as [s | s | | s m e]; try (apply valid_finite in V);
    try destruct s; cbn [rank];
    change (2 ^ 53)%Z with 9007199254740992%Z in *; lia.
Qed.

Lemma compare_rank (a b : float) :
  nan64 a = 0%Z -> nan64 b = 0%Z ->
  SFcompare (Prim2SF a) (Prim2SF b) = Some (Z.compare (ord64 a) (ord64 b)).
Proof.
  intros. apply SFcompare_rank; auto using Prim2SF_valid.
Qed.

Lemma compare_nan (a b : float) :
  nan64 a <> 0%Z \/ nan64 b <> 0%Z ->
  SFcompare (Prim2SF a) (Prim2SF b) = None.
Proof.
  unfold nan64.
  destruct (Prim2SF a) as [s | s | | s m e],
           (Prim2SF b) as [s' | s' | | s' m' e'];
    cbn; intros [H | H]; try reflexivity; try contradiction.
Qed.

Lemma nan64_cases (a : float) : nan64 a = 0%Z \/ nan64 a <> 0%Z.
Proof. lia. Qed.

(** The range of the three keys of a value: a NaN and a negative zero have
    rank 0, and a NaN is not a negative zero. *)
Lemma key_range (a : float) :
  (0 <= nan64 a <= 1 /\ 0 <= neg064 a <= 1 /\ nan64 a + neg064 a <= 1 /\
   - 18437736874454810624 * (1 - nan64 a) <= ord64 a
     <= 18437736874454810624 * (1 - nan64 a) /\
   - 18437736874454810624 * (1 - neg064 a) <= ord64 a
     <= 18437736874454810624 * (1 - neg064 a))%Z.
Proof.
  pose proof (rank_bound (Prim2SF a) (Prim2SF_valid a)) as B. revert B.
  unfold nan64, neg064, ord64. destruct (Prim2SF a) as [s | s | | s m e];
    try destruct s; cbn [nanflag negzero]; try (cbn [rank]; lia);
    intros B; lia.
Qed.

(** [a < b], [a <= b] and [a === b] in terms of the keys. *)
Lemma ltb_true (a b : float) :
  (a <? b) = true <-> (nan64 a = 0 /\ nan64 b = 0 /\ ord64 a < ord64 b)%Z.
Proof.
  rewrite FloatAxioms.ltb_spec. unfold SFltb.
  destruct (nan64_cases a) as [Na | Na]; [ destruct (nan64_cases b) as [Nb | Nb] | ].
  - rewrite (compare_rank a b Na Nb).
    destruct (Z.compare_spec (ord64 a) (ord64 b)); split; intros;
      try discriminate; try reflexivity; lia.
  - rewrite compare_nan by (right; exact Nb). split; [ discriminate | lia ].
  - rewrite compare_nan by (left; exact Na). split; [ discriminate | lia ].
Qed.

Lemma leb_true (a b : float) :
  (a <=? b) = true <-> (nan64 a = 0 /\ nan64 b = 0 /\ ord64 a <= ord64 b)%Z.
Proof.
  rewrite FloatAxioms.leb_spec. unfold SFleb.
  destruct (nan64_cases a) as [Na | Na]; [ destruct (nan64_cases b) as [Nb | Nb] | ].
  - rewrite (compare_rank a b Na Nb).
    destruct (Z.compare_spec (ord64 a) (ord64 b)); split; intros;
      try discriminate; try reflexivity; lia.
  - rewrite compare_nan by (right; exact Nb). split; [ discriminate | lia ].
  - rewrite compare_nan by (left; exact Na). split; [ discriminate | lia ].
Qed.

Lemma eqb_true (a b : float) :
  (a =? b) = true <-> (nan64 a = 0 /\ nan64 b = 0 /\ ord64 a = ord64 b)%Z.
Proof.
  rewrite FloatAxioms.eqb_spec. unfold SFeqb.
  destruct (nan64_cases a) as [Na | Na]; [ destruct (nan64_cases b) as [Nb | Nb] | ].
  - rewrite (compare_rank a b Na Nb).
    destruct (Z.compare_spec (ord64 a) (ord64 b)); split; intros;
      try discriminate; try reflexivity; lia.
  - rewrite compare_nan by (right; exact Nb). split; [ discriminate | lia ].
  - rewrite compare_nan by (left; exact Na). split; [ discriminate | lia ].
Qed.

(** Two values are the same value when their keys agree. *)
Lemma float_eq (a b : float) :
  a = b <-> (nan64 a = nan64 b /\ ord64 a = ord64 b /\ neg064 a = neg064 b)%Z.
Proof.
  split; [ intros ->; repeat split | ].
  intros (Hn & Hr & Hz). apply Prim2SF_inj.
  apply rank_inj; auto using Prim2SF_valid.
Qed.

Lemma bool_false_iff (b : bool) (P : Prop) :
  (b = true <-> P) -> (b = false <-> ~ P).
Proof.
  destruct b; intros [H1 H2]; split; intros H;
    try discriminate; try reflexivity.
  - exfalso. apply H. apply H1. reflexivity.
  - intros p. apply H2 in p. discriminate.
Qed.

Lemma ltb_false (a b : float) :
  (a <? b) = false <-> ~ (nan64 a = 0 /\ nan64 b = 0 /\ ord64 a < ord64 b)%Z.
Proof. apply bool_false_iff, ltb_true. Qed.

Lemma leb_false (a b : float) :
  (a <=? b) = false <-> ~ (nan64 a = 0 /\ nan64 b = 0 /\ ord64 a <= ord64 b)%Z.
Proof. apply bool_false_iff, leb_true. Qed.

Lemma eqb_false (a b : float) :
  (a =? b) = false <-> ~ (nan64 a = 0 /\ nan64 b = 0 /\ ord64 a = ord64 b)%Z.
Proof. apply bool_false_iff, eqb_true. Qed.

Lemma is_nan_true (a : float) : is_nan a = true <-> nan64 a = 1%Z.
Proof.
  unfold is_nan. rewrite negb_true_iff, eqb_false.
  pose proof (key_range a). lia.
Qed.

Lemma is_nan_false (a : float) : is_nan a = false <-> nan64 a = 0%Z.
Proof.
  unfold is_nan. rewrite negb_false_iff, eqb_true. lia.
Qed.

Lemma Leibniz_true (a b : float) :
  PrimFloat.Leibniz.eqb a b = true <->
  (nan64 a = nan64 b /\ ord64 a = ord64 b /\ neg064 a = neg064 b)%Z.
Proof. rewrite FloatAxioms.Leibniz.eqb_spec. apply float_eq. Qed.

Lemma Leibniz_false (a b : float) :
  PrimFloat.Leibniz.eqb a b = false <->
  ~ (nan64 a = nan64 b /\ ord64 a = ord64 b /\ neg064 a = neg064 b)%Z.
Proof. apply bool_false_iff, Leibniz_true. Qed.

(** The keys of the constants of the source. *)
Lemma keys_0 : (nan64 0 = 0 /\ ord64 0 = 0 /\ neg064 0 = 0)%Z.
Proof. vm_compute. repeat split. Qed.

Lemma keys_neg_zero :
  (nan64 neg_zero = 0 /\ ord64 neg_zero = 0 /\ neg064 neg_zero = 1)%Z.
Proof. vm_compute. repeat split. Qed.

Lemma keys_nan : (nan64 nan = 1 /\ ord64 nan = 0 /\ neg064 nan = 0)%Z.
Proof. vm_compute. repeat split. Qed.

Lemma keys_2 :
  (nan64 2 = 0 /\ ord64 2 = 9227875636482146304 /\ neg064 2 = 0)%Z.
Proof. vm_compute. repeat split. Qed.

Lemma keys_lower :
  (nan64 (INSTAGRAM_MIN_ASPECT - EPSILON) = 0 /\
   ord64 (INSTAGRAM_MIN_ASPECT - EPSILON) = 9212554390549831877 /\
   neg064 (INSTAGRAM_MIN_ASPECT - EPSILON) = 0)%Z.
Proof. vm_compute. repeat split. Qed.

Lemma keys_min :
  (nan64 INSTAGRAM_MIN_ASPECT = 0 /\
   ord64 INSTAGRAM_MIN_ASPECT = 9212563397749086618 /\
   neg064 INSTAGRAM_MIN_ASPECT = 0)%Z.
Proof. vm_compute. repeat split. Qed.

Lemma keys_upper :
  (nan64 (INSTAGRAM_MAX_ASPECT + EPSILON) = 0 /\
   ord64 (INSTAGRAM_MAX_ASPECT + EPSILON) = 9222971216487939833 /\
   neg064 (INSTAGRAM_MAX_ASPECT + EPSILON) = 0)%Z.
Proof. vm_compute. repeat split. Qed.

(** Comparisons among the hypotheses and in the goal, as facts about the
    keys. *)
Ltac key_hyps :=
  repeat match goal with
  | H : (_ <? _) = true |- _ => apply ltb_true in H
  | H : (_ <? _) = false |- _ => apply ltb_false in H
  | H : (_ <=? _) = true |- _ => apply leb_true in H
  | H : (_ <=? _) = false |- _ => apply leb_false in H
  | H : (_ =? _) = true |- _ => apply eqb_true in H
  | H : (_ =? _) = false |- _ => apply eqb_false in H
  | H : is_nan _ = true |- _ => apply is_nan_true in H
  | H : is_nan _ = false |- _ => apply is_nan_false in H
  | H : PrimFloat.Leibniz.eqb _ _ = true |- _ => apply Leibniz_true in H
  | H : PrimFloat.Leibniz.eqb _ _ = false |- _ => apply Leibniz_false in H
  | H : @eq float _ _ |- _ => apply float_eq in H
  | H : ~ @eq float _ _ |- _ => rewrite float_eq in H
  end.

Ltac key_goal :=
  lazymatch goal with
  | |- (_ <? _) = true => apply ltb_true
  | |- (_ <? _) = false => apply ltb_false
  | |- (_ <=? _) = true => apply leb_true
  | |- (_ <=? _) = false => apply leb_false
  | |- (_ =? _) = true => apply eqb_true
  | |- (_ =? _) = false => apply eqb_false
  | |- is_nan _ = true => apply is_nan_true
  | |- is_nan _ = false => apply is_nan_false
  | |- PrimFloat.Leibniz.eqb _ _ = true => apply Leibniz_true
  | |- PrimFloat.Leibniz.eqb _ _ = false => apply Leibniz_false
  | |- @eq float _ _ => apply float_eq
  | |- ~ @eq float _ _ => rewrite float_eq
  | |- _ => idtac
  end.

Ltac key_constants :=
  rewrite
    ?(proj1 keys_0), ?(proj1 (proj2 keys_0)), ?(proj2 (proj2 keys_0)),
    ?(proj1 keys_neg_zero), ?(proj1 (proj2 keys_neg_zero)),
    ?(proj2 (proj2 keys_neg_zero)),
    ?(proj1 keys_nan), ?(proj1 (proj2 keys_nan)), ?(proj2 (proj2 keys_nan)),
    ?(proj1 keys_2), ?(proj1 (proj2 keys_2)), ?(proj2 (proj2 keys_2)),
    ?(proj1 keys_lower), ?(proj1 (proj2 keys_lower)),
    ?(proj2 (proj2 keys_lower)),
    ?(proj1 keys_min), ?(proj1 (proj2 keys_min)), ?(proj2 (proj2 keys_min)),
    ?(proj1 keys_upper), ?(proj1 (proj2 keys_upper)),
    ?(proj2 (proj2 keys_upper)) in *.

Ltac key_ranges :=
  repeat match goal with
  | |- context [nan64 ?a] =>
      lazymatch goal with
      | _ : ranged a |- _ => fail
      | _ => pose proof (key_range a); assert (ranged a) by exact I
      end
  | _ : context [nan64 ?a] |- _ =>
      lazymatch goal with
      | _ : ranged a |- _ => fail
      | _ => pose proof (key_range a); assert (ranged a) by exact I
      end
  | |- context [ord64 ?a] =>
      lazymatch goal with
      | _ : ranged a |- _ => fail
      | _ => pose proof (key_range a); assert (ranged a) by exact I
      end
  | _ : context [ord64 ?a] |- _ =>
      lazymatch goal with
      | _ : ranged a |- _ => fail
      | _ => pose proof (key_range a); assert (ranged a) by exact I
      end
  end;
  repeat match goal with
  | H : ranged _ |- _ => clear H
  end.

(** Decides a comparison of binary64 values from the comparisons among the
    hypotheses. *)
Ltac order64 :=
  key_hyps; key_goal; key_constants; key_ranges; lia.

(** Case analysis on the tests of a conditional. *)
Ltac split_ifs :=
  repeat match goal with
  | |- context [if ?c then _ else _] =>
      let E := fresh "E" in destruct c eqn:E
  end.

Ltac bools :=
  repeat match goal with
  | H : _ || _ = true |- _ => apply orb_true_iff in H; destruct H as [H | H]
  | H : _ || _ = false |- _ => apply orb_false_iff in H; destruct H
  | H : _ && _ = true |- _ => apply andb_true_iff in H; destruct H
  | H : _ && _ = false |- _ => apply andb_false_iff in H; destruct H as [H | H]
  | H : negb _ = true |- _ => apply negb_true_iff in H
  | H : negb _ = false |- _ => apply negb_false_iff in H
  end.

(** ** JavaScript values *)

Lemma truthy_true (q : float) : truthy q = true <-> nonzero q.
Proof.
  unfold truthy, nonzero, is_zero.
  rewrite negb_true_iff, orb_false_iff. reflexivity.
Qed.

Lemma truthy_false (q : float) : truthy q = false <-> falsy q.
Proof.
  unfold truthy, falsy, is_zero.
  rewrite negb_false_iff, orb_true_iff. reflexivity.
Qed.

Lemma falsy_or_nonzero (q : float) : falsy q \/ nonzero q.
Proof.
  destruct (truthy q) eqn:E.
  - right. apply truthy_true. exact E.
  - left. apply truthy_false. exact E.
Qed.

Lemma nonzero_not_falsy (q : float) : nonzero q -> ~ falsy q.
Proof.
  intros H C. apply truthy_true in H. apply truthy_false in C. congruence.
Qed.

(** A positive number is truthy, and so is a number that is at least 2. *)
Lemma positive_nonzero (q : float) : (0 <? q) = true -> nonzero q.
Proof. intros H. split; order64. Qed.

Lemma at_least_2_nonzero (q : float) : (2 <=? q) = true -> nonzero q.
Proof. intros H. split; order64. Qed.

(** [Math.max] and [Math.min] do not depend on the order of their
    arguments. *)
Lemma Math_max_comm (a b : float) : Math_max a b = Math_max b a.
Proof.
  unfold Math_max, is_neg_zero, is_pos_zero.
  split_ifs; bools; try reflexivity; order64.
Qed.

Lemma Math_min_comm (a b : float) : Math_min a b = Math_min b a.
Proof.
  unfold Math_min, is_neg_zero, is_pos_zero.
  split_ifs; bools; try reflexivity; order64.
Qed.

(** [Math.max(a, b)] is never below [a] or [b]. *)
Lemma Math_max_not_below (a b : float) :
  (Math_max a b <? a) = false /\ (Math_max a b <? b) = false.
Proof.
  unfold Math_max, is_neg_zero, is_pos_zero.
  split; split_ifs; bools; order64.
Qed.

(** Taking the maximum with [a] a second time changes nothing. *)
Lemma Math_max_again (a b : float) :
  Math_max a (Math_max a b) = Math_max a b.
Proof.
  unfold Math_max, is_neg_zero, is_pos_zero.
  split_ifs; bools; try reflexivity; order64.
Qed.



(** ** Rectangle Clamp *)

(** The four numbers of the clamped rectangle. *)
Lemma clamp_X (crop frame : Rect.t) :
  Rect.X (clampPixelCropToFrame crop frame) =
  Math_max (Rect.X frame) (Rect.X crop).
Proof. reflexivity. Qed.

Lemma clamp_Y (crop frame : Rect.t) :
  Rect.Y (clampPixelCropToFrame crop frame) =
  Math_max (Rect.Y frame) (Rect.Y crop).
Proof. reflexivity. Qed.

Lemma clamp_W (crop frame : Rect.t) :
  Rect.W (clampPixelCropToFrame crop frame) =
  Math_max 0
    (Math_min (Rect.X frame + Rect.W frame) (Rect.X crop + Rect.W crop) -
     Math_max (Rect.X frame) (Rect.X crop)).
Proof. reflexivity. Qed.

Lemma clamp_H (crop frame : Rect.t) :
  Rect.H (clampPixelCropToFrame crop frame) =
  Math_max 0
    (Math_min (Rect.Y frame + Rect.H frame) (Rect.Y crop + Rect.H crop) -
     Math_max (Rect.Y frame) (Rect.Y crop)).
Proof. reflexivity. Qed.

(** The origin is never left of or above the frame's or the candidate's,
    and the width and height are never negative. *)
Lemma clamp_not_below (crop frame : Rect.t) :
  (Rect.X (clampPixelCropToFrame crop frame) <? Rect.X frame) = false /\
  (Rect.Y (clampPixelCropToFrame crop frame) <? Rect.Y frame) = false /\
  (Rect.X (clampPixelCropToFrame crop frame) <? Rect.X crop) = false /\
  (Rect.Y (clampPixelCropToFrame crop frame) <? Rect.Y crop) = false /\
  (Rect.W (clampPixelCropToFrame crop frame) <? 0) = false /\
  (Rect.H (clampPixelCropToFrame crop frame) <? 0) = false.
Proof.
  rewrite clamp_X, clamp_Y, clamp_W, clamp_H.
  split; [ apply Math_max_not_below | ].
  split; [ apply Math_max_not_below | ].
  split; [ apply Math_max_not_below | ].
  split; [ apply Math_max_not_below | ].
  split; apply Math_max_not_below.
Qed.




(** Clamping a second time leaves the origin where it is. *)
Lemma clamp_again_X (crop frame : Rect.t) :
  Rect.X (clampPixelCropToFrame (clampPixelCropToFrame crop frame) frame) =
  Rect.X (clampPixelCropToFrame crop frame).
Proof. rewrite !clamp_X. apply Math_max_again. Qed.

Lemma clamp_again_Y (crop frame : Rect.t) :
  Rect.Y (clampPixelCropToFrame (clampPixelCropToFrame crop frame) frame) =
  Rect.Y (clampPixelCropToFrame crop frame).
Proof. rewrite !clamp_Y. apply Math_max_again. Qed.

Lemma clamp_again_xy (crop frame : Rect.t) :
  Rect.x (clampPixelCropToFrame (clampPixelCropToFrame crop frame) frame) =
  Rect.x (clampPixelCropToFrame crop frame) /\
  Rect.y (clampPixelCropToFrame (clampPixelCropToFrame crop frame) frame) =
  Rect.y (clampPixelCropToFrame crop frame).
Proof.
  pose proof (clamp_again_X crop frame) as EX.
  pose proof (clamp_again_Y crop frame) as EY.
  split.
  - change (Some (Rect.X (clampPixelCropToFrame
                            (clampPixelCropToFrame crop frame) frame)) =
            Some (Rect.X (clampPixelCropToFrame crop frame))).
    rewrite EX. reflexivity.
  - change (Some (Rect.Y (clampPixelCropToFrame
                            (clampPixelCropToFrame crop frame) frame)) =
            Some (Rect.Y (clampPixelCropToFrame crop frame))).
    rewrite EY. reflexivity.
Qed.

(** C6 (as amended).  For every candidate and frame, clamping the clamped
    rectangle again leaves x and y exactly as they are, and computes the
    width afresh as max(0, min(frame.x + frame.width, x + width) - x) from
    the clamped rectangle's own x and width, and the height likewise, in
    binary64; neither is negative. *)
Theorem clampPixelCropToFrame_again :
  forall crop frame : Rect.t,
    let c := clampPixelCropToFrame crop frame in
    let cc := clampPixelCropToFrame c frame in
    Rect.x cc = Rect.x c /\
    Rect.y cc = Rect.y c /\
    Rect.width cc =
      Some (Math_max 0
              (Math_min (Rect.X frame + Rect.W frame) (Rect.X c + Rect.W c) -
               Rect.X c)) /\
    Rect.height cc =
      Some (Math_max 0
              (Math_min (Rect.Y frame + Rect.H frame) (Rect.Y c + Rect.H c) -
               Rect.Y c)) /\
    (Rect.W cc <? 0) = false /\
    (Rect.H cc <? 0) = false.
Proof.
  intros crop frame c cc.
  pose proof (clamp_again_X crop frame) as EX.
  pose proof (clamp_again_Y crop frame) as EY.
  fold c in EX, EY. fold cc in EX, EY.
  split; [ change (Some (Rect.X cc) = Some (Rect.X c)); rewrite EX; reflexivity | ].
  split; [ change (Some (Rect.Y cc) = Some (Rect.Y c)); rewrite EY; reflexivity | ].
  split; [ change (Some (Rect.W cc) = Some (Math_max 0
              (Math_min (Rect.X frame + Rect.W frame) (Rect.X c + Rect.W c) -
               Rect.X c))); unfold cc; rewrite clamp_W; fold cc;
           change (Math_max (Rect.X frame) (Rect.X c)) with (Rect.X cc);
           rewrite EX; reflexivity | ].
  split; [ change (Some (Rect.H cc) = Some (Math_max 0
              (Math_min (Rect.Y frame + Rect.H frame) (Rect.Y c + Rect.H c) -
               Rect.Y c))); unfold cc; rewrite clamp_H; fold cc;
           change (Math_max (Rect.Y frame) (Rect.Y c)) with (Rect.Y cc);
           rewrite EY; reflexivity | ].
  split; apply (clamp_not_below c frame).
Qed.

(** C6, counterexample.  Frame {15.4, 13.95, 105.73, 1913.17} and candidate
    {57.13, 815.65, 131.28, 3448.45}: the clamped rectangle has width 64,
    and clamping it again gives width 63.99999999999999. *)
Lemma clampPixelCropToFrame_not_idempotent :
  Rect.W (clampPixelCropToFrame crop_fractional frame_fractional) = 64 /\
  Rect.W (clampPixelCropToFrame
            (clampPixelCropToFrame crop_fractional frame_fractional)
            frame_fractional) = 63.999999999999993 /\
  ~ Rect.equiv
      (clampPixelCropToFrame
         (clampPixelCropToFrame crop_fractional frame_fractional)
         frame_fractional)
      (clampPixelCropToFrame crop_fractional frame_fractional).
Proof.
  split; [ vm_compute; reflexivity | ].
  split; [ vm_compute; reflexivity | ].
  intros (_ & _ & C & _). vm_compute in C. discriminate C.
Qed.

(** ** Compatibility-Crop Generator *)

(** The tolerance band, as the source computes its two bounds. *)
Example tolerance_band :
  INSTAGRAM_MIN_ASPECT - EPSILON = 0.79900000000000004 /\
  INSTAGRAM_MAX_ASPECT + EPSILON = 1.9109999999999998 /\
  (INSTAGRAM_MIN_ASPECT - EPSILON <? INSTAGRAM_MIN_ASPECT) = true /\
  (INSTAGRAM_MAX_ASPECT <? INSTAGRAM_MAX_ASPECT + EPSILON) = true.
Proof. repeat split. Qed.



(** The examples of the specification. *)
Example compatible_pass_through :
  createInstagramCompatibleCrop frame_1000x600 =
  Rect.mk (Some "px"%string) (Some 0) (Some 0) (Some 1000) (Some 600).
Proof. reflexivity. Qed.

Example compatible_too_tall :
  createInstagramCompatibleCrop frame_400x1000 =
  Rect.mk (Some "px"%string) (Some 0) (Some 250) (Some 400) (Some 500).
Proof. reflexivity. Qed.

Example compatible_too_wide :
  createInstagramCompatibleCrop frame_2000x500 =
  Rect.mk (Some "px"%string) (Some 522.5) (Some 0) (Some 955) (Some 500).
Proof. reflexivity. Qed.


(** ** Centered-Crop Generator *)

(** On a frame whose width or height is zero, NaN or missing there is no
    rectangle. *)
Lemma centered_zero_frame (frame : Rect.t) (aspect : option float) :
  falsy (Rect.W frame) \/ falsy (Rect.H frame) ->
  createCenteredCropInFrame frame aspect = None.
Proof.
  intros H. unfold createCenteredCropInFrame.
  fold (Rect.X frame) (Rect.Y frame) (Rect.W frame) (Rect.H frame).
  destruct H as [H | H]; apply truthy_false in H; rewrite H.
  - reflexivity.
  - rewrite orb_true_r. reflexivity.
Qed.

Section CenteredCrop.

Variable frame : Rect.t.
Hypothesis width_nonzero : nonzero (Rect.W frame).
Hypothesis height_nonzero : nonzero (Rect.H frame).

Lemma centered_guard :
  negb (truthy (Rect.W frame)) || negb (truthy (Rect.H frame)) = false.
Proof.
  apply truthy_true in width_nonzero. apply truthy_true in height_nonzero.
  rewrite width_nonzero, height_nonzero. reflexivity.
Qed.

(** No aspect (or an aspect of zero or NaN): 60% of the frame. *)
Lemma centered_unconstrained (aspect : option float) :
  truthy_field aspect = false ->
  createCenteredCropInFrame frame aspect =
  Some (Rect.mk (Some "px"%string)
          (Some (Rect.X frame + (Rect.W frame - Rect.W frame * 0.6) / 2))
          (Some (Rect.Y frame + (Rect.H frame - Rect.H frame * 0.6) / 2))
          (Some (Rect.W frame * 0.6))
          (Some (Rect.H frame * 0.6))).
Proof.
  intros Ea. unfold createCenteredCropInFrame.
  fold (Rect.X frame) (Rect.Y frame) (Rect.W frame) (Rect.H frame).
  rewrite centered_guard, Ea. reflexivity.
Qed.

(** An aspect [a]: 80% of the width and the height that goes with it,
    unless that height exceeds 80% of the frame's. *)
Lemma centered_width_limited (a : float) :
  nonzero a ->
  (Rect.W frame * 0.8 / a >? Rect.H frame * 0.8) = false ->
  createCenteredCropInFrame frame (Some a) =
  Some (Rect.mk (Some "px"%string)
          (Some (Rect.X frame + (Rect.W frame - Rect.W frame * 0.8) / 2))
          (Some (Rect.Y frame + (Rect.H frame - Rect.W frame * 0.8 / a) / 2))
          (Some (Rect.W frame * 0.8))
          (Some (Rect.W frame * 0.8 / a))).
Proof.
  intros Ha Hfit. apply truthy_true in Ha. unfold createCenteredCropInFrame.
  fold (Rect.X frame) (Rect.Y frame) (Rect.W frame) (Rect.H frame).
  rewrite centered_guard. simpl truthy_field. rewrite Ha.
  simpl negb. cbv iota. cbv zeta. simpl nullish.
  rewrite Hfit. reflexivity.
Qed.

Lemma centered_height_limited (a : float) :
  nonzero a ->
  (Rect.W frame * 0.8 / a >? Rect.H frame * 0.8) = true ->
  createCenteredCropInFrame frame (Some a) =
  Some (Rect.mk (Some "px"%string)
          (Some (Rect.X frame + (Rect.W frame - Rect.H frame * 0.8 * a) / 2))
          (Some (Rect.Y frame + (Rect.H frame - Rect.H frame * 0.8) / 2))
          (Some (Rect.H frame * 0.8 * a))
          (Some (Rect.H frame * 0.8))).
Proof.
  intros Ha Hover. apply truthy_true in Ha. unfold createCenteredCropInFrame.
  fold (Rect.X frame) (Rect.Y frame) (Rect.W frame) (Rect.H frame).
  rewrite centered_guard. simpl truthy_field. rewrite Ha.
  simpl negb. cbv iota. cbv zeta. simpl nullish.
  rewrite Hover. reflexivity.
Qed.

End CenteredCrop.

(** C4.  For every frame of positive width and height, in binary64.  With
    no aspect the rectangle has 0.6 times the frame's width and height and
    is placed at frame.x + (frame.width - width) / 2 and frame.y +
    (frame.height - height) / 2.  With a positive aspect it starts from
    width = 0.8 * frame.width and height = width / aspect; when that
    height exceeds 0.8 * frame.height, the height is 0.8 * frame.height
    and the width is height * aspect; the rectangle is placed by the same
    two formulas.  For the frame 1000 x 500 and aspect 1 the result is
    400 x 400 at x = 300, y = 50. *)
Theorem createCenteredCropInFrame_policy :
  forall frame : Rect.t,
    (0 <? Rect.W frame) = true -> (0 <? Rect.H frame) = true ->
    (exists r : Rect.t,
       createCenteredCropInFrame frame None = Some r /\
       Rect.width r = Some (Rect.W frame * 0.6) /\
       Rect.height r = Some (Rect.H frame * 0.6) /\
       Rect.x r = Some (Rect.X frame + (Rect.W frame - Rect.W r) / 2) /\
       Rect.y r = Some (Rect.Y frame + (Rect.H frame - Rect.H r) / 2)) /\
    (forall a : float,
       (0 <? a) = true ->
       exists r : Rect.t,
         createCenteredCropInFrame frame (Some a) = Some r /\
         ((Rect.W frame * 0.8 / a >? Rect.H frame * 0.8) = false ->
          Rect.width r = Some (Rect.W frame * 0.8) /\
          Rect.height r = Some (Rect.W frame * 0.8 / a)) /\
         ((Rect.W frame * 0.8 / a >? Rect.H frame * 0.8) = true ->
          Rect.height r = Some (Rect.H frame * 0.8) /\
          Rect.width r = Some (Rect.H frame * 0.8 * a)) /\
         Rect.x r = Some (Rect.X frame + (Rect.W frame - Rect.W r) / 2) /\
         Rect.y r = Some (Rect.Y frame + (Rect.H frame - Rect.H r) / 2)) /\
    createCenteredCropInFrame frame_1000x500 (Some 1) =
      Some (Rect.mk (Some "px"%string)
              (Some 300) (Some 50) (Some 400) (Some 400)).
Proof.
  intros frame HW HH.
  apply positive_nonzero in HW. apply positive_nonzero in HH.
  split.
  { eexists. split; [ apply centered_unconstrained; auto | ].
    repeat split. }
  split; [ | reflexivity ].
  intros a Ha. apply positive_nonzero in Ha.
  destruct (Rect.W frame * 0.8 / a >? Rect.H frame * 0.8) eqn:E.
  - eexists. split; [ apply centered_height_limited; assumption | ].
    split; [ intros C; discriminate C | ].
    repeat split.
  - eexists. split; [ apply centered_width_limited; assumption | ].
    split; [ intros _; split; reflexivity | ].
    split; [ intros C; discriminate C | ].
    repeat split.
Qed.

(** The frame {0, 0, 200, 100} without an aspect (spec, testable
    properties): {40, 20, 120, 60}. *)
Lemma createCenteredCropInFrame_policy_witness :
  exists r : Rect.t,
    createCenteredCropInFrame frame_200x100 None = Some r /\
    Rect.width r = Some 120 /\ Rect.height r = Some 60 /\
    Rect.x r = Some 40 /\ Rect.y r = Some 20.
Proof.
  destruct (createCenteredCropInFrame_policy frame_200x100)
    as ((r & E & EW & EH & EX & EY) & _).
  - reflexivity.
  - reflexivity.
  - exists r. split; [ exact E | ].
    injection E as E. subst r.
    repeat split.
Defined.

(** With the aspect 16 / 9 the frame 200 x 100 gives 142.22222222222223 x
    80, whose ratio is the aspect up to rounding. *)
Example centered_16_9_in_200x100 :
  createCenteredCropInFrame frame_200x100 (Some (16 / 9)) =
  Some (Rect.mk (Some "px"%string)
          (Some 28.888888888888886) (Some 10)
          (Some 142.22222222222223) (Some 80)).
Proof. reflexivity. Qed.

(** ** Zero-area frames *)

(** C3, what the code does on frames of zero width or height.  The
    centered-crop generator returns null on each of them.  The
    compatibility-crop generator has no such guard and returns a rectangle
    of zero width and height (on width 0: 0 / 100 = 0 < min; on height 0:
    100 / 0 = Infinity; on both 0: 0 / 0 = NaN), and in compatibility mode
    the image-loaded handler stores that rectangle as the working and live
    rectangle.  Export stays disabled on both paths. *)
Theorem generators_on_zero_frame :
  (createCenteredCropInFrame frame_0x100 None = None /\
   createCenteredCropInFrame frame_100x0 (Some 1) = None /\
   createCenteredCropInFrame frame_0x0 None = None) /\
  (Rect.equiv (createInstagramCompatibleCrop frame_0x100)
     (Rect.make 0 50 0 0) /\
   Rect.equiv (createInstagramCompatibleCrop frame_100x0)
     (Rect.make 50 0 0 0) /\
   Rect.equiv (createInstagramCompatibleCrop frame_0x0)
     (Rect.make 0 0 0 0)) /\
  (currentRectangle
     (step None state_with_source (imageLoaded img_0x100 (val frame_0x100)))
   = undefined /\
   currentRectangle
     (step (Some "instagram"%string) state_with_source
        (imageLoaded img_0x100 (val frame_0x100)))
   = val (createInstagramCompatibleCrop frame_0x100)) /\
  (renderedDisabledSave
     (step None state_with_source (imageLoaded img_0x100 (val frame_0x100)))
   = true /\
   renderedDisabledSave
     (step (Some "instagram"%string) state_with_source
        (imageLoaded img_0x100 (val frame_0x100)))
   = true).
Proof.
  split; [ repeat split | ].
  split; [ repeat split; vm_compute; reflexivity | ].
  split; repeat split.
Qed.

(** On every frame whose width or height is zero (or NaN, or missing) the
    centered-crop generator returns null, the image-loaded handler outside
    compatibility mode leaves the working rectangle as it was, and export
    is disabled after an image-loaded event in either mode. *)
Lemma zero_frame_no_export (compatibilityParam : option string) (s : State)
    (img : Img.t) (frame : Rect.t) (aspect : option float) :
  falsy (Rect.W frame) \/ falsy (Rect.H frame) ->
  createCenteredCropInFrame frame aspect = None /\
  (instagramCompatibilityEnabled compatibilityParam = false ->
   crop (handleImageLoaded compatibilityParam img (val frame) s) = crop s) /\
  (completedCrop s = null ->
   renderedDisabledSave
     (handleImageLoaded compatibilityParam img (val frame) s) = true).
Proof.
  intros Hz. split; [ apply centered_zero_frame; exact Hz | ].
  split.
  - intros Hoff. unfold handleImageLoaded. rewrite Hoff.
    cbv zeta. unfold setImageFrame at 2. simpl activePreset.
    rewrite (centered_zero_frame frame _ Hz). reflexivity.
  - intros Hc. unfold handleImageLoaded.
    destruct (instagramCompatibilityEnabled compatibilityParam).
    + unfold renderedDisabledSave, disabledSave. simpl.
      rewrite orb_true_r. reflexivity.
    + cbv zeta. unfold setImageFrame at 2. simpl activePreset.
      rewrite (centered_zero_frame frame _ Hz).
      unfold renderedDisabledSave, disabledSave. simpl. rewrite Hc. simpl.
      rewrite orb_true_r. reflexivity.
Qed.

(** ** Crop State Reconciler *)

(** The effect cleanup touches the registry of revoked URLs only. *)
Lemma sourceEffectCleanup_fields (before after : State) :
  source (sourceEffectCleanup before after) = source after /\
  activePreset (sourceEffectCleanup before after) = activePreset after /\
  crop (sourceEffectCleanup before after) = crop after /\
  completedCrop (sourceEffectCleanup before after) = completedCrop after /\
  livePixelCrop (sourceEffectCleanup before after) = livePixelCrop after /\
  imageFrame (sourceEffectCleanup before after) = imageFrame after /\
  isErrorModalOpen (sourceEffectCleanup before after) =
    isErrorModalOpen after.
Proof.
  assert (C : sourceEffectCleanup before after = after \/
              exists u, sourceEffectCleanup before after =
                        revokeObjectURL u after).
  { unfold sourceEffectCleanup, revokeIfSet.
    destruct (source before) as [ | | u]; try (left; reflexivity).
    destruct (source after) as [ | | v];
      try destruct (String.eqb u v);
      destruct (truthy_source (val u));
      first [ left; reflexivity | right; exists u; reflexivity ]. }
  destruct C as [E | (u & E)]; rewrite E; repeat split; reflexivity.
Qed.

Lemma effectiveCrop_cleanup (before after : State) :
  effectiveCrop (sourceEffectCleanup before after) = effectiveCrop after.
Proof.
  destruct (sourceEffectCleanup_fields before after)
    as (_ & _ & _ & Ec & El & Ef & _).
  unfold effectiveCrop. rewrite Ec, El, Ef. reflexivity.
Qed.

Lemma currentAspect_cleanup (before after : State) :
  currentAspect (sourceEffectCleanup before after) = currentAspect after.
Proof.
  unfold currentAspect. rewrite effectiveCrop_cleanup. reflexivity.
Qed.

(** An event that keeps the source runs no effect cleanup. *)
Lemma cleanup_same_source (before after : State) :
  source after = source before ->
  sourceEffectCleanup before after = after.
Proof.
  intros E. unfold sourceEffectCleanup. rewrite E.
  destruct (source before) as [ | | u]; try reflexivity.
  rewrite String.eqb_refl. reflexivity.
Qed.

(** What a drag update writes. *)
Lemma handleCropChange_fields (pixelCrop percentCrop : Rect.t)
    (frame : js Rect.t) (s : State) :
  let activeFrame := js_or frame (imageFrame s) in
  let nextCrop :=
    match activeFrame with
    | val f => clampPixelCropToFrame pixelCrop f
    | _ => pixelCrop
    end in
  let s' := handleCropChange pixelCrop percentCrop frame s in
  crop s' = val nextCrop /\
  livePixelCrop s' = val nextCrop /\
  imageFrame s' = activeFrame /\
  completedCrop s' = completedCrop s /\
  source s' = source s /\
  activePreset s' = activePreset s /\
  isErrorModalOpen s' = isErrorModalOpen s /\
  revoked s' = revoked s.
Proof.
  unfold handleCropChange, js_or.
  destruct frame as [ | | f]; destruct (imageFrame s) as [ | | g] eqn:E;
    simpl; rewrite ?E; repeat split; reflexivity.
Qed.

(** What a drag commit writes. *)
Lemma handleCropComplete_fields (pixelCrop : Rect.t) (frame : js Rect.t)
    (s : State) :
  let activeFrame := js_or frame (imageFrame s) in
  let nextCrop :=
    match activeFrame with
    | val f => clampPixelCropToFrame pixelCrop f
    | _ => pixelCrop
    end in
  let s' := handleCropComplete pixelCrop frame s in
  completedCrop s' = val nextCrop /\
  livePixelCrop s' = val nextCrop /\
  imageFrame s' = activeFrame /\
  crop s' = crop s /\
  source s' = source s /\
  activePreset s' = activePreset s.
Proof.
  unfold handleCropComplete, js_or.
  destruct frame as [ | | f]; destruct (imageFrame s) as [ | | g] eqn:E;
    simpl; rewrite ?E; repeat split; reflexivity.
Qed.

(** C8.  A drag update ([cropDragged], handled by [handleCropChange]) leaves
    the completed rectangle unchanged, in every state and for every raw
    rectangle and frame: it writes the working and the live rectangle (the
    same rectangle) and the stored frame, and nothing else of the state. *)
Theorem handleCropChange_keeps_completedCrop :
  forall (compatibilityParam : option string) (s : State)
         (pixelCrop percentCrop : Rect.t) (frame : js Rect.t),
    completedCrop (handleCropChange pixelCrop percentCrop frame s)
      = completedCrop s /\
    completedRectangle
      (step compatibilityParam s (cropDragged pixelCrop percentCrop frame))
      = completedRectangle s /\
    crop (handleCropChange pixelCrop percentCrop frame s)
      = livePixelCrop (handleCropChange pixelCrop percentCrop frame s) /\
    source (handleCropChange pixelCrop percentCrop frame s) = source s /\
    activePreset (handleCropChange pixelCrop percentCrop frame s)
      = activePreset s /\
    isErrorModalOpen (handleCropChange pixelCrop percentCrop frame s)
      = isErrorModalOpen s.
Proof.
  intros compatibilityParam s pixelCrop percentCrop frame.
  destruct (handleCropChange_fields pixelCrop percentCrop frame s)
    as (Ec & El & _ & Ed & Es & Ep & Em & _).
  split; [ exact Ed | ].
  split.
  { unfold completedRectangle, step. simpl handle.
    destruct (sourceEffectCleanup_fields s
                (handleCropChange pixelCrop percentCrop frame s))
      as (_ & _ & _ & E & _).
    rewrite E. exact Ed. }
  split; [ rewrite Ec, El; reflexivity | ].
  repeat split; assumption.
Qed.

Lemma ASPECT_PRESETS_first :
  nth_error ASPECT_PRESETS 0 = Some ASPECT_PRESETS_0.
Proof. reflexivity. Qed.

(** C9.  After a reset, in every state: the working rectangle is undefined,
    the completed rectangle is null, and the active preset is the first
    preset of the catalogue, the unconstrained one (aspect null).  The live
    rectangle, the frame and the source are discarded as well. *)
Theorem handleReset_clears :
  forall (compatibilityParam : option string) (s : State),
    currentRectangle (step compatibilityParam s reset) = undefined /\
    completedRectangle (step compatibilityParam s reset) = null /\
    activePreset (step compatibilityParam s reset) = ASPECT_PRESETS_0 /\
    nth_error ASPECT_PRESETS 0 =
      Some (activePreset (step compatibilityParam s reset)) /\
    aspect (activePreset (step compatibilityParam s reset)) = None /\
    livePixelCrop (step compatibilityParam s reset) = null /\
    imageFrame (step compatibilityParam s reset) = null /\
    source (step compatibilityParam s reset) = null /\
    effectiveAspect (step compatibilityParam s reset) = None.
Proof.
  intros compatibilityParam s.
  unfold currentRectangle, completedRectangle, effectiveAspect, step.
  rewrite currentAspect_cleanup.
  destruct (sourceEffectCleanup_fields s (handle compatibilityParam reset s))
    as (Es & Ep & Ec & Ed & El & Ef & _).
  rewrite Es, Ep, Ec, Ed, El, Ef. simpl.
  repeat split; reflexivity.
Qed.

(** ** Aspect Tracker *)

Lemma truthy_field_nullish (v : option float) :
  truthy_field v = truthy (v ?? 0).
Proof. destruct v; reflexivity. Qed.

Lemma guard_proper (r : Rect.t) :
  truthy_field (Rect.width r) && truthy_field (Rect.height r) = true <->
  proper r.
Proof.
  rewrite !truthy_field_nullish. fold (Rect.W r) (Rect.H r).
  rewrite andb_true_iff, !truthy_true. reflexivity.
Qed.

Lemma guard_degenerate (v : js Rect.t) :
  truthy_field (opt_chain v Rect.width) &&
  truthy_field (opt_chain v Rect.height) = false <->
  degenerate v.
Proof.
  destruct v as [ | | r]; simpl; try tauto.
  rewrite !truthy_field_nullish. fold (Rect.W r) (Rect.H r).
  rewrite andb_false_iff, !truthy_false. reflexivity.
Qed.

Lemma guard_frame (v : js Rect.t) :
  negb (truthy_field (opt_chain v Rect.width)) ||
  negb (truthy_field (opt_chain v Rect.height)) = true <->
  degenerate v.
Proof.
  rewrite <- negb_andb, negb_true_iff. apply guard_degenerate.
Qed.

Lemma not_degenerate (r : Rect.t) : proper r -> ~ degenerate (val r).
Proof.
  intros (HW & HH) [C | C]; revert C; apply nonzero_not_falsy; assumption.
Qed.

Section EffectiveCrop.

Variable s : State.

(** No usable frame: no effective rectangle. *)
Lemma effectiveCrop_no_frame :
  degenerate (imageFrame s) -> effectiveCrop s = null.
Proof.
  intros H. apply guard_frame in H. unfold effectiveCrop.
  rewrite H. reflexivity.
Qed.

Variable frame : Rect.t.
Hypothesis frame_stored : imageFrame s = val frame.
Hypothesis frame_proper : proper frame.

Lemma frame_guard_passes :
  negb (truthy_field (opt_chain (imageFrame s) Rect.width)) ||
  negb (truthy_field (opt_chain (imageFrame s) Rect.height)) = false.
Proof.
  rewrite <- negb_andb, negb_false_iff, frame_stored. simpl.
  apply guard_proper. exact frame_proper.
Qed.

(** A usable live rectangle wins. *)
Lemma effectiveCrop_live (live : Rect.t) :
  livePixelCrop s = val live -> proper live ->
  effectiveCrop s = val (clampPixelCropToFrame live frame).
Proof.
  intros El Hl. unfold effectiveCrop.
  rewrite frame_guard_passes, El. simpl opt_chain.
  apply guard_proper in Hl. rewrite Hl, frame_stored. reflexivity.
Qed.

(** Without one, a usable completed rectangle is taken. *)
Lemma effectiveCrop_completed (done : Rect.t) :
  degenerate (livePixelCrop s) ->
  completedCrop s = val done -> proper done ->
  effectiveCrop s = val (clampPixelCropToFrame done frame).
Proof.
  intros Hl Ed Hd. unfold effectiveCrop.
  apply guard_degenerate in Hl. rewrite frame_guard_passes, Hl, Ed.
  simpl opt_chain. apply guard_proper in Hd.
  rewrite Hd, frame_stored. reflexivity.
Qed.

(** Without either, there is none. *)
Lemma effectiveCrop_neither :
  degenerate (livePixelCrop s) -> degenerate (completedCrop s) ->
  effectiveCrop s = null.
Proof.
  intros Hl Hd. unfold effectiveCrop.
  apply guard_degenerate in Hl. apply guard_degenerate in Hd.
  rewrite frame_guard_passes, Hl, Hd. reflexivity.
Qed.

End EffectiveCrop.

(** The aspect reported for an effective rectangle. *)
Lemma currentAspect_of (s : State) (e : Rect.t) :
  effectiveCrop s = val e -> currentAspect s = reportedAspect e.
Proof.
  intros E. unfold currentAspect, reportedAspect. rewrite E. simpl opt_chain.
  rewrite <- negb_andb, !truthy_field_nullish. fold (Rect.W e) (Rect.H e).
  destruct (truthy (Rect.W e) && truthy (Rect.H e)); reflexivity.
Qed.

Lemma currentAspect_null (s : State) :
  effectiveCrop s = null -> currentAspect s = None.
Proof.
  intros E. unfold currentAspect. rewrite E. reflexivity.
Qed.

Lemma reportedAspect_proper (r : Rect.t) :
  proper r -> reportedAspect r = Some (Rect.W r / Rect.H r).
Proof.
  intros (HW & HH). unfold reportedAspect.
  apply truthy_true in HW. apply truthy_true in HH.
  rewrite HW, HH. reflexivity.
Qed.

(** C10.  When the stored frame is absent or has zero width or zero height
    (or a width or height that is NaN), the effective rectangle is none and
    the effective aspect is null, whatever the live and completed
    rectangles are.  With a usable frame, a live rectangle of zero width or
    height is passed over: the effective rectangle is the completed
    rectangle clamped to the frame when that one has non-zero width and
    height, and none otherwise. *)
Theorem effectiveCrop_skips_degenerate :
  forall s : State,
    (degenerate (imageFrame s) ->
     effectiveCrop s = null /\ effectiveAspect s = None) /\
    (forall frame live : Rect.t,
       imageFrame s = val frame -> proper frame ->
       livePixelCrop s = val live ->
       falsy (Rect.W live) \/ falsy (Rect.H live) ->
       (forall done : Rect.t,
          completedCrop s = val done -> proper done ->
          effectiveCrop s = val (clampPixelCropToFrame done frame) /\
          effectiveAspect s =
            reportedAspect (clampPixelCropToFrame done frame)) /\
       (degenerate (completedCrop s) ->
        effectiveCrop s = null /\ effectiveAspect s = None)).
Proof.
  intros s. split.
  - intros H. pose proof (effectiveCrop_no_frame s H) as E.
    split; [ exact E | apply currentAspect_null; exact E ].
  - intros frame live Ef Hf El Hz.
    assert (Hl : degenerate (livePixelCrop s)) by (rewrite El; exact Hz).
    split.
    + intros done Ed Hd.
      pose proof (effectiveCrop_completed s frame Ef Hf done Hl Ed Hd) as E.
      split; [ exact E | apply currentAspect_of; exact E ].
    + intros Hd.
      pose proof (effectiveCrop_neither s frame Ef Hf Hl Hd) as E.
      split; [ exact E | apply currentAspect_null; exact E ].
Qed.

Lemma effectiveCrop_skips_degenerate_witness :
  (effectiveCrop state_zero_frame = null /\
   effectiveAspect state_zero_frame = None) /\
  effectiveCrop state_zero_live =
    val (clampPixelCropToFrame rect_50x20 frame_100x100).
Proof.
  split.
  - apply (proj1 (effectiveCrop_skips_degenerate state_zero_frame)).
    right. left. reflexivity.
  - destruct (effectiveCrop_skips_degenerate state_zero_live) as (_ & H).
    assert (Hf : proper frame_100x100) by (split; split; reflexivity).
    assert (Hz : falsy (Rect.W rect_0x30) \/ falsy (Rect.H rect_0x30))
      by (left; left; reflexivity).
    destruct (H frame_100x100 rect_0x30 eq_refl Hf eq_refl Hz) as (Hd & _).
    assert (Hp : proper rect_50x20) by (split; split; reflexivity).
    exact (proj1 (Hd rect_50x20 eq_refl Hp)).
Defined.

(** C7 (as amended).  In every state with a usable frame (stored, of
    non-zero width and height), the effective rectangle is the live rectangle
    clamped to the frame when the live rectangle has non-zero width and
    height; failing that, the completed rectangle clamped to the frame when
    that one has non-zero width and height; else none.  After a drag commit
    followed by a drag update, the live rectangle is the dragged rectangle
    clamped to the frame, and when that rectangle has non-zero width and
    height the effective rectangle is that rectangle clamped to the frame
    once more (same x and y) and the effective aspect is the aspect of
    that rectangle, whatever was committed. *)
Theorem effectiveCrop_prefers_live :
  forall (s : State) (frame : Rect.t),
    imageFrame s = val frame -> proper frame ->
    (forall live : Rect.t,
       livePixelCrop s = val live -> proper live ->
       effectiveCrop s = val (clampPixelCropToFrame live frame)) /\
    (forall done : Rect.t,
       degenerate (livePixelCrop s) ->
       completedCrop s = val done -> proper done ->
       effectiveCrop s = val (clampPixelCropToFrame done frame)) /\
    (degenerate (livePixelCrop s) -> degenerate (completedCrop s) ->
     effectiveCrop s = null) /\
    (forall (compatibilityParam : option string) (s0 : State)
            (committed : Rect.t) (committedFrame : js Rect.t)
            (dragged percentCrop : Rect.t) (draggedFrame : js Rect.t),
       s = afterCommitThenDrag compatibilityParam s0 committed committedFrame
             dragged percentCrop draggedFrame ->
       livePixelCrop s = val (clampPixelCropToFrame dragged frame) /\
       (proper (clampPixelCropToFrame dragged frame) ->
        exists e : Rect.t,
          effectiveCrop s = val e /\
          e = clampPixelCropToFrame
                (clampPixelCropToFrame dragged frame) frame /\
          Rect.x e = Rect.x (clampPixelCropToFrame dragged frame) /\
          Rect.y e = Rect.y (clampPixelCropToFrame dragged frame) /\
          effectiveAspect s = reportedAspect e)).
Proof.
  intros s frame Ef Hf.
  split; [ intros live; apply effectiveCrop_live; assumption | ].
  split; [ intros done; apply effectiveCrop_completed; assumption | ].
  split; [ apply (effectiveCrop_neither s frame); assumption | ].
  intros compatibilityParam s0 committed committedFrame dragged percentCrop
    draggedFrame Es.
  assert (El : livePixelCrop s = val (clampPixelCropToFrame dragged frame)).
  { unfold afterCommitThenDrag, run, fold_left in Es.
    set (s1 := step compatibilityParam s0
                 (cropCommitted committed committedFrame)) in Es.
    unfold step in Es. simpl handle in Es.
    destruct (sourceEffectCleanup_fields s1
                (handleCropChange dragged percentCrop draggedFrame s1))
      as (_ & _ & _ & _ & El & Ef' & _).
    destruct (handleCropChange_fields dragged percentCrop draggedFrame s1)
      as (_ & El' & Ef'' & _).
    rewrite <- Es in El, Ef'. rewrite El' in El. rewrite Ef'' in Ef'.
    rewrite Ef in Ef'. rewrite <- Ef' in El. exact El. }
  split; [ exact El | ].
  intros Hp.
  pose proof (effectiveCrop_live s frame Ef Hf _ El Hp) as Ee.
  eexists. split; [ exact Ee | ].
  split; [ reflexivity | ].
  destruct (clamp_again_xy dragged frame) as (EX & EY).
  split; [ exact EX | ]. split; [ exact EY | ].
  apply currentAspect_of. exact Ee.
Qed.

(** A commit of 50 x 20 followed by a drag update of 30 x 30, both against
    the frame 100 x 100. *)
Lemma effectiveCrop_prefers_live_witness :
  same_aspect
    (effectiveAspect
       (afterCommitThenDrag None (initialState None) rect_50x20
          (val frame_100x100) rect_30x30 rect_30x30 (val frame_100x100)))
    (Some (30 / 30)).
Proof.
  assert (Hf : proper frame_100x100) by (split; split; reflexivity).
  destruct (effectiveCrop_prefers_live
              (afterCommitThenDrag None (initialState None) rect_50x20
                 (val frame_100x100) rect_30x30 rect_30x30
                 (val frame_100x100))
              frame_100x100 eq_refl Hf) as (_ & _ & _ & H).
  destruct (H None (initialState None) rect_50x20 (val frame_100x100)
              rect_30x30 rect_30x30 (val frame_100x100) eq_refl)
    as (_ & Hp).
  assert (P : proper (clampPixelCropToFrame rect_30x30 frame_100x100))
    by (split; split; reflexivity).
  destruct (Hp P) as (e & _ & Ee & _ & _ & Ha).
  rewrite Ha, Ee. reflexivity.
Defined.

(** C7, counterexample.  Frame 100 x 100; a drag commit of the rectangle
    50 x 20 is followed by a drag update whose rectangle has width 0 (and
    height 30).  The live rectangle is the dragged one, yet the effective
    rectangle is the committed one and the effective aspect is the
    committed rectangle's 50 / 20, not the (null) aspect of the dragged
    rectangle. *)
Lemma effectiveAspect_reflects_committed :
  livePixelCrop
    (afterCommitThenDrag None (initialState None) rect_50x20
       (val frame_100x100) rect_0x30 rect_0x30 (val frame_100x100))
  = val (clampPixelCropToFrame rect_0x30 frame_100x100) /\
  Rect.equiv (clampPixelCropToFrame rect_0x30 frame_100x100) rect_0x30 /\
  reportedAspect (clampPixelCropToFrame rect_0x30 frame_100x100) = None /\
  effectiveCrop
    (afterCommitThenDrag None (initialState None) rect_50x20
       (val frame_100x100) rect_0x30 rect_0x30 (val frame_100x100))
  = val (clampPixelCropToFrame
           (clampPixelCropToFrame rect_50x20 frame_100x100) frame_100x100) /\
  same_aspect
    (effectiveAspect
       (afterCommitThenDrag None (initialState None) rect_50x20
          (val frame_100x100) rect_0x30 rect_0x30 (val frame_100x100)))
    (Some (50 / 20)) /\
  ~ same_aspect
      (effectiveAspect
         (afterCommitThenDrag None (initialState None) rect_50x20
            (val frame_100x100) rect_0x30 rect_0x30 (val frame_100x100)))
      (reportedAspect (clampPixelCropToFrame rect_0x30 frame_100x100)).
Proof.
  split; [ reflexivity | ].
  split; [ vm_compute; repeat split; reflexivity | ].
  split; [ reflexivity | ].
  split; [ reflexivity | ].
  split; [ vm_compute; reflexivity | ].
  vm_compute. intros C. exact C.
Qed.

(** The tolerance at the upper bound (spec, testable properties): aspect
    1.9105 is compatible, aspect 1.92 is not. *)
Example boundary_tolerance :
  currentAspect (state_with_live (Rect.make 0 0 19105 10000))
    = Some (19105 / 10000) /\
  instagramCompatible (state_with_live (Rect.make 0 0 19105 10000)) = true /\
  instagramCompatible (state_with_live (Rect.make 0 0 192 100)) = false.
Proof. repeat split. Qed.

(** ** Compatibility mode *)

Lemma instagramCompatibilityEnabled_iff (compatibilityParam : option string) :
  instagramCompatibilityEnabled compatibilityParam = true <->
  compatibilityMode compatibilityParam = val INSTAGRAM_COMPATIBILITY_KEY.
Proof.
  unfold instagramCompatibilityEnabled.
  destruct (compatibilityMode compatibilityParam) as [ | | m].
  - split; discriminate.
  - split; discriminate.
  - rewrite String.eqb_eq. split; intros H.
    + rewrite H. reflexivity.
    + injection H as H. exact H.
Qed.

(** The mode is read without regard to the case of its letters. *)
Example compatibilityMode_lower_case :
  compatibilityMode (Some "Instagram"%string) = val "instagram"%string /\
  compatibilityMode (Some ""%string) = null /\
  compatibilityMode None = null.
Proof. repeat split. Qed.

(** With the mode requested the block is rendered, and its icon is the
    verdict of the tracker. *)
Lemma compatibility_report_active (compatibilityParam : option string)
    (s : State) :
  compatibilityMode compatibilityParam = val INSTAGRAM_COMPATIBILITY_KEY ->
  exists b : CompatibilityBlock,
    renderedCompatibility compatibilityParam s = Some b /\
    icon_ok b = instagramCompatible s.
Proof.
  intros H. apply instagramCompatibilityEnabled_iff in H.
  unfold renderedCompatibility, compatibilityBlock. rewrite H.
  eexists. split; reflexivity.
Qed.

(** The verdict of the tracker: an image is selected and the effective
    aspect lies within the tolerance. *)
Lemma instagramCompatible_true (s : State) :
  instagramCompatible s = true <->
  truthy_source (source s) = true /\
  exists a : float,
    currentAspect s = Some a /\
    (INSTAGRAM_MIN_ASPECT - EPSILON <=? a) = true /\
    (a <=? INSTAGRAM_MAX_ASPECT + EPSILON) = true.
Proof.
  unfold instagramCompatible. split.
  - destruct (truthy_source (source s)); [ | intros C; discriminate C ].
    destruct (currentAspect s) as [a | ]; [ | intros C; discriminate C ].
    simpl. destruct (truthy a); [ | intros C; discriminate C ].
    simpl. intros H. apply andb_true_iff in H. destruct H as (Lo & Hi).
    split; [ reflexivity | ]. exists a. repeat split; assumption.
  - intros (Es & a & Ea & Lo & Hi). rewrite Es, Ea.
    assert (Et : truthy a = true) by (apply truthy_true; split; order64).
    simpl truthy_field. rewrite Et. simpl.
    apply andb_true_iff. split; assumption.
Qed.

(** C5 (as amended).  In every state, when the compatibility mode was not
    requested (the mode read from the configuration is absent, or is not
    "instagram"), the compatibility block is not rendered, so no verdict is
    shown.  The tracker itself is not inert: [instagramCompatible] is
    computed as in compatibility mode, and is true exactly when an image is
    selected and the effective aspect lies within min - epsilon and
    max + epsilon. *)
Theorem compatibility_report_hidden :
  forall (compatibilityParam : option string) (s : State),
    compatibilityMode compatibilityParam = null \/
    (exists m : string,
       compatibilityMode compatibilityParam = val m /\
       m <> "instagram"%string) ->
    instagramCompatibilityEnabled compatibilityParam = false /\
    renderedCompatibility compatibilityParam s = None /\
    (isCompatible s = true <->
     truthy_source (source s) = true /\
     exists a : float,
       effectiveAspect s = Some a /\
       (INSTAGRAM_MIN_ASPECT - EPSILON <=? a) = true /\
       (a <=? INSTAGRAM_MAX_ASPECT + EPSILON) = true).
Proof.
  intros compatibilityParam s H.
  assert (E : instagramCompatibilityEnabled compatibilityParam = false).
  { destruct (instagramCompatibilityEnabled compatibilityParam) eqn:E;
      [ | reflexivity ].
    apply instagramCompatibilityEnabled_iff in E.
    destruct H as [H | (m & H & Hm)]; rewrite H in E.
    - discriminate.
    - injection E as E. contradiction. }
  split; [ exact E | ].
  split; [ unfold renderedCompatibility, compatibilityBlock; rewrite E;
           reflexivity | ].
  apply instagramCompatible_true.
Qed.

Lemma compatibility_report_hidden_witness :
  renderedCompatibility None state_square_live = None /\
  renderedCompatibility (Some "facebook"%string) state_square_live = None /\
  isCompatible state_square_live = true.
Proof.
  destruct (compatibility_report_hidden None state_square_live)
    as (_ & E1 & V); [ left; reflexivity | ].
  destruct (compatibility_report_hidden (Some "facebook"%string)
              state_square_live) as (_ & E2 & _).
  { right. exists "facebook"%string. split; [ reflexivity | discriminate ]. }
  split; [ exact E1 | ]. split; [ exact E2 | ].
  apply V. split; [ reflexivity | ].
  exists (30 / 30). repeat split.
Defined.

(** C5, counterexample.  The flag is absent, an image is selected and the
    live rectangle is 30 x 30 in the frame 100 x 100: the tracker reports
    the verdict "compatible" (and "not compatible" for a live rectangle
    192 x 100), a computed verdict in both cases. *)
Lemma compatibility_verdict_computed :
  compatibilityMode None = null /\
  instagramCompatibilityEnabled None = false /\
  effectiveAspect state_square_live = Some 1 /\
  isCompatible state_square_live = true /\
  effectiveAspect (state_with_live (Rect.make 0 0 192 100)) = Some 1.92 /\
  isCompatible (state_with_live (Rect.make 0 0 192 100)) = false.
Proof. repeat split. Qed.

(** * Further properties of the code *)

(** ** Rectangle Clamp *)

(** X2.  The result does not depend on which rectangle is the candidate
    and which is the frame: the two results are the same rectangle. *)
Theorem clampPixelCropToFrame_symmetric :
  forall a b : Rect.t,
    clampPixelCropToFrame a b = clampPixelCropToFrame b a.
Proof.
  intros a b. unfold clampPixelCropToFrame.
  fold (Rect.X a) (Rect.Y a) (Rect.W a) (Rect.H a).
  fold (Rect.X b) (Rect.Y b) (Rect.W b) (Rect.H b).
  rewrite (Math_max_comm (Rect.X b) (Rect.X a)).
  rewrite (Math_max_comm (Rect.Y b) (Rect.Y a)).
  rewrite (Math_min_comm (Rect.X b + Rect.W b) (Rect.X a + Rect.W a)).
  rewrite (Math_min_comm (Rect.Y b + Rect.H b) (Rect.Y a + Rect.H a)).
  reflexivity.
Qed.

(** ** Centered-Crop Generator *)

(** On a frame of non-zero width and height there is always a rectangle. *)
Lemma centered_some (frame : Rect.t) (aspect : option float) :
  proper frame ->
  exists r : Rect.t, createCenteredCropInFrame frame aspect = Some r.
Proof.
  intros (HW & HH). apply truthy_true in HW. apply truthy_true in HH.
  unfold createCenteredCropInFrame.
  fold (Rect.X frame) (Rect.Y frame) (Rect.W frame) (Rect.H frame).
  rewrite HW, HH. simpl.
  destruct (truthy_field aspect); simpl.
  - destruct (Rect.W frame * 0.8 / (aspect ?? 0) >? Rect.H frame * 0.8);
      eexists; reflexivity.
  - eexists; reflexivity.
Qed.

(** X4.  The centered-crop generator returns null exactly when the frame's
    width or height is zero, NaN or missing, whatever the aspect. *)
Theorem createCenteredCropInFrame_null_iff :
  forall (frame : Rect.t) (aspect : option float),
    createCenteredCropInFrame frame aspect = None <->
    falsy (Rect.W frame) \/ falsy (Rect.H frame).
Proof.
  intros frame aspect. split.
  - intros E.
    destruct (falsy_or_nonzero (Rect.W frame)) as [HW | HW];
      [ left; exact HW | ].
    destruct (falsy_or_nonzero (Rect.H frame)) as [HH | HH];
      [ right; exact HH | ].
    destruct (centered_some frame aspect (conj HW HH)) as (r & Er).
    rewrite Er in E. discriminate E.
  - apply centered_zero_frame.
Qed.

(** ** Compatibility-Crop Generator *)

(** The keys of a value by its kind: a zero, an infinity, NaN, or a finite
    number other than zero. *)
Lemma keys_by_kind (a : float) :
  match Prim2SF a with
  | S754_zero s =>
      (nan64 a = 0 /\ ord64 a = 0 /\ neg064 a = if s then 1 else 0)%Z
  | S754_infinity s =>
      (nan64 a = 0 /\
       ord64 a = if s then - 18437736874454810624
                 else 18437736874454810624)%Z
  | S754_nan => nan64 a = 1%Z
  | S754_finite s _ _ =>
      (nan64 a = 0 /\
       if s then - 18437736874454810624 < ord64 a < 0
       else 0 < ord64 a < 18437736874454810624)%Z
  end.
Proof.
  pose proof (Prim2SF_valid a) as V. revert V.
  unfold nan64, ord64, neg064.
  destruct (Prim2SF a) as [s | s | | s m e]; intros V;
    try (apply valid_finite in V); try destruct s;
    cbn [nanflag rank negzero];
    change (2 ^ 53)%Z with 9007199254740992%Z in *; lia.
Qed.

(** A zero divided by a number other than zero is a zero. *)
Lemma div_zero_by_number (w h : float) :
  (w =? 0) = true -> nonzero h -> (w / h =? 0) = true.
Proof.
  intros Hw (Hh & Hn). key_hyps. key_constants.
  apply eqb_true. key_constants.
  pose proof (keys_by_kind w) as Kw. pose proof (keys_by_kind h) as Kh.
  change (nan64 (w / h)) with (nanflag (Prim2SF (w / h))).
  change (ord64 (w / h)) with (rank (Prim2SF (w / h))).
  rewrite div_spec.
  destruct (Prim2SF w) as [s | s | | s m e];
    destruct (Prim2SF h) as [s' | s' | | s' m' e'];
    try destruct s; try destruct s'; cbn; lia.
Qed.

(** A positive number divided by [+0] is [Infinity]. *)
Lemma div_positive_by_zero (w h : float) :
  (0 <? w) = true -> h = 0 -> w / h = infinity.
Proof.
  intros Hw Hh. subst h. key_hyps. key_constants.
  pose proof (keys_by_kind w) as Kw.
  apply Prim2SF_inj. rewrite div_spec.
  change (Prim2SF 0) with (S754_zero false).
  change (Prim2SF infinity) with (S754_infinity false).
  destruct (Prim2SF w) as [s | s | | s m e]; try destruct s; cbn;
    try reflexivity; lia.
Qed.

(** A zero divided by a zero is NaN. *)
Lemma div_zero_by_zero (w h : float) :
  (w =? 0) = true -> (h =? 0) = true -> is_nan (w / h) = true.
Proof.
  intros Hw Hh. key_hyps. key_constants.
  apply is_nan_true.
  pose proof (keys_by_kind w) as Kw. pose proof (keys_by_kind h) as Kh.
  change (nan64 (w / h)) with (nanflag (Prim2SF (w / h))).
  rewrite div_spec.
  destruct (Prim2SF w) as [s | s | | s m e];
    destruct (Prim2SF h) as [s' | s' | | s' m' e'];
    try destruct s; try destruct s'; cbn; lia.
Qed.

(** A zero times the upper bound of the envelope is a zero. *)
Lemma mul_zero_by_max (h : float) :
  (h =? 0) = true -> (h * INSTAGRAM_MAX_ASPECT =? 0) = true.
Proof.
  intros Hh. key_hyps. key_constants.
  apply eqb_true. key_constants.
  pose proof (keys_by_kind h) as Kh.
  change (nan64 (h * INSTAGRAM_MAX_ASPECT))
    with (nanflag (Prim2SF (h * INSTAGRAM_MAX_ASPECT))).
  change (ord64 (h * INSTAGRAM_MAX_ASPECT))
    with (rank (Prim2SF (h * INSTAGRAM_MAX_ASPECT))).
  rewrite mul_spec.
  change (Prim2SF INSTAGRAM_MAX_ASPECT)
    with (S754_finite false 8601875288277647 (-52)).
  destruct (Prim2SF h) as [s | s | | s m e]; try destruct s; cbn; lia.
Qed.

Lemma min_aspect_nonzero : nonzero INSTAGRAM_MIN_ASPECT.
Proof. split; reflexivity. Qed.

(** X7.  On a frame of zero width or height (neither negative, and the
    height not the negative zero) the generator returns a rectangle, never
    null, and both its width and its height are zero. *)
Theorem createInstagramCompatibleCrop_degenerate_frame :
  forall frame : Rect.t,
    (0 <=? Rect.W frame) = true -> (0 <=? Rect.H frame) = true ->
    is_neg_zero (Rect.H frame) = false ->
    (Rect.W frame =? 0) = true \/ (Rect.H frame =? 0) = true ->
    (Rect.W (createInstagramCompatibleCrop frame) =? 0) = true /\
    (Rect.H (createInstagramCompatibleCrop frame) =? 0) = true /\
    degenerate (val (createInstagramCompatibleCrop frame)).
Proof.
  intros frame HW HH Hneg Hz.
  assert (Goal : (Rect.W (createInstagramCompatibleCrop frame) =? 0) = true /\
                 (Rect.H (createInstagramCompatibleCrop frame) =? 0) = true).
  { unfold createInstagramCompatibleCrop.
    fold (Rect.X frame) (Rect.Y frame) (Rect.W frame) (Rect.H frame).
    destruct (Rect.H frame =? 0) eqn:EH.
    - (* the height is +0 *)
      assert (EH0 : Rect.H frame = 0).
      { unfold is_neg_zero in Hneg. order64. }
      pose proof (mul_zero_by_max (Rect.H frame) EH) as EM.
      destruct (Rect.W frame =? 0) eqn:EW.
      + pose proof (div_zero_by_zero _ _ EW EH) as En.
        assert (E1 : (Rect.W frame / Rect.H frame
                      >=? INSTAGRAM_MIN_ASPECT - EPSILON) = false)
          by order64.
        assert (E2 : (Rect.W frame / Rect.H frame <? INSTAGRAM_MIN_ASPECT)
                     = false) by order64.
        rewrite E1, E2. simpl. split; [ exact EM | exact EH ].
      + assert (Wp : (0 <? Rect.W frame) = true) by order64.
        pose proof (div_positive_by_zero _ _ Wp EH0) as Ei.
        rewrite Ei.
        change (infinity <=? INSTAGRAM_MAX_ASPECT + EPSILON) with false.
        change (infinity <? INSTAGRAM_MIN_ASPECT) with false.
        rewrite andb_false_r. simpl. split; [ exact EM | exact EH ].
    - (* the width is zero, the height is positive *)
      assert (EW : (Rect.W frame =? 0) = true)
        by (destruct Hz as [Hz | Hz]; [ exact Hz | congruence ]).
      assert (Hn : nonzero (Rect.H frame)) by (split; order64).
      pose proof (div_zero_by_number _ _ EW Hn) as Ea.
      pose proof (div_zero_by_number _ _ EW min_aspect_nonzero) as Eh.
      assert (E1 : (Rect.W frame / Rect.H frame
                    >=? INSTAGRAM_MIN_ASPECT - EPSILON) = false)
        by order64.
      assert (E2 : (Rect.W frame / Rect.H frame <? INSTAGRAM_MIN_ASPECT)
                   = true) by order64.
      rewrite E1, E2. simpl. split; [ exact EW | exact Eh ]. }
  destruct Goal as (GW & GH).
  split; [ exact GW | ]. split; [ exact GH | ]. left. left. exact GW.
Qed.

Lemma createInstagramCompatibleCrop_degenerate_frame_witness :
  (Rect.W (createInstagramCompatibleCrop frame_100x0) =? 0) = true /\
  (Rect.H (createInstagramCompatibleCrop frame_100x0) =? 0) = true /\
  degenerate (val (createInstagramCompatibleCrop frame_100x0)).
Proof.
  apply (createInstagramCompatibleCrop_degenerate_frame frame_100x0).
  - reflexivity.
  - reflexivity.
  - reflexivity.
  - right. reflexivity.
Defined.

(** ** Aspect Tracker *)

(** An effective rectangle is a usable rectangle (the live one, or the
    completed one when the live one is not usable) clamped to a usable
    stored frame. *)
Lemma effectiveCrop_origin (s : State) (e : Rect.t) :
  effectiveCrop s = val e ->
  exists c frame : Rect.t,
    imageFrame s = val frame /\ proper frame /\ proper c /\
    e = clampPixelCropToFrame c frame /\
    (livePixelCrop s = val c \/
     degenerate (livePixelCrop s) /\ completedCrop s = val c).
Proof.
  unfold effectiveCrop. intros E.
  destruct (imageFrame s) as [ | | frame] eqn:Ef;
    try (simpl in E; discriminate E).
  simpl opt_chain in E.
  destruct (truthy_field (Rect.width frame) &&
            truthy_field (Rect.height frame)) eqn:Gf.
  2:{ rewrite <- negb_andb, Gf in E. simpl in E. discriminate E. }
  rewrite <- negb_andb, Gf in E. simpl negb in E. cbv iota in E.
  apply guard_proper in Gf.
  destruct (truthy_field (opt_chain (livePixelCrop s) Rect.width) &&
            truthy_field (opt_chain (livePixelCrop s) Rect.height)) eqn:Gl.
  - destruct (livePixelCrop s) as [ | | l] eqn:El;
      try (simpl in Gl; discriminate Gl).
    simpl in Gl. apply guard_proper in Gl.
    simpl in E. injection E as E.
    exists l, frame.
    split; [ reflexivity | ]. split; [ exact Gf | ]. split; [ exact Gl | ].
    split; [ symmetry; exact E | left; reflexivity ].
  - apply guard_degenerate in Gl.
    destruct (truthy_field (opt_chain (completedCrop s) Rect.width) &&
              truthy_field (opt_chain (completedCrop s) Rect.height)) eqn:Gc;
      [ | discriminate E ].
    destruct (completedCrop s) as [ | | c] eqn:Ec;
      try (simpl in Gc; discriminate Gc).
    simpl in Gc. apply guard_proper in Gc.
    simpl in E. injection E as E.
    exists c, frame.
    split; [ reflexivity | ]. split; [ exact Gf | ]. split; [ exact Gc | ].
    split; [ symmetry; exact E | right; split; [ exact Gl | reflexivity ] ].
Qed.

(** The width and height of a clamped rectangle are never negative, so when
    they are non-zero numbers they are positive. *)
Lemma clamp_proper_positive (c frame : Rect.t) :
  proper (clampPixelCropToFrame c frame) ->
  (0 <? Rect.W (clampPixelCropToFrame c frame)) = true /\
  (0 <? Rect.H (clampPixelCropToFrame c frame)) = true.
Proof.
  intros ((HW & HWn) & (HH & HHn)).
  destruct (clamp_not_below c frame) as (_ & _ & _ & _ & LW & LH).
  split; order64.
Qed.

(** A reported aspect is the aspect of a rectangle with non-zero width and
    height. *)
Lemma reportedAspect_some (r : Rect.t) (a : float) :
  reportedAspect r = Some a -> proper r /\ a = Rect.W r / Rect.H r.
Proof.
  unfold reportedAspect. intros E.
  destruct (truthy (Rect.W r)) eqn:EW; [ | discriminate E ].
  destruct (truthy (Rect.H r)) eqn:EH; [ | discriminate E ].
  simpl in E. injection E as E.
  apply truthy_true in EW. apply truthy_true in EH.
  split; [ split; assumption | symmetry; exact E ].
Qed.

(** Where a non-null aspect comes from. *)
Lemma currentAspect_some (s : State) (a : float) :
  currentAspect s = Some a ->
  exists c frame : Rect.t,
    imageFrame s = val frame /\ proper frame /\ proper c /\
    (livePixelCrop s = val c \/
     degenerate (livePixelCrop s) /\ completedCrop s = val c) /\
    effectiveCrop s = val (clampPixelCropToFrame c frame) /\
    (0 <? Rect.W (clampPixelCropToFrame c frame)) = true /\
    (0 <? Rect.H (clampPixelCropToFrame c frame)) = true /\
    a = Rect.W (clampPixelCropToFrame c frame) /
        Rect.H (clampPixelCropToFrame c frame).
Proof.
  intros E.
  destruct (effectiveCrop s) as [ | | e] eqn:Ee;
    try (unfold currentAspect in E; rewrite Ee in E; discriminate E).
  rewrite (currentAspect_of s e Ee) in E.
  apply reportedAspect_some in E. destruct E as (Hp & Ea).
  destruct (effectiveCrop_origin s e Ee) as (c & frame & Ef & Pf & Pc & Ec & Ho).
  subst e.
  destruct (clamp_proper_positive c frame Hp) as (Wp & Hp').
  exists c, frame. repeat split; try assumption; try apply Pf; try apply Pc.
Qed.

(** X8.  Whenever the effective aspect is not null, a usable frame is
    stored, the effective rectangle is the live rectangle clamped to that
    frame (or the completed one, when the live one is not usable), it has
    positive width and height, its origin is not left of or above the
    frame's, and the aspect is its width / height. *)
Theorem effectiveAspect_of_clamped_rectangle :
  forall (s : State) (a : float),
    effectiveAspect s = Some a ->
    exists c frame : Rect.t,
      imageFrame s = val frame /\ proper frame /\ proper c /\
      (livePixelCrop s = val c \/
       degenerate (livePixelCrop s) /\ completedCrop s = val c) /\
      effectiveCrop s = val (clampPixelCropToFrame c frame) /\
      (0 <? Rect.W (clampPixelCropToFrame c frame)) = true /\
      (0 <? Rect.H (clampPixelCropToFrame c frame)) = true /\
      (Rect.X (clampPixelCropToFrame c frame) <? Rect.X frame) = false /\
      (Rect.Y (clampPixelCropToFrame c frame) <? Rect.Y frame) = false /\
      a = Rect.W (clampPixelCropToFrame c frame) /
          Rect.H (clampPixelCropToFrame c frame).
Proof.
  intros s a E.
  destruct (currentAspect_some s a E)
    as (c & frame & Ef & Pf & Pc & Ho & Ee & Wp & Hp & Ea).
  destruct (clamp_not_below c frame) as (LX & LY & _).
  exists c, frame.
  split; [ exact Ef | ]. split; [ exact Pf | ]. split; [ exact Pc | ].
  split; [ exact Ho | ]. split; [ exact Ee | ]. split; [ exact Wp | ].
  split; [ exact Hp | ]. split; [ exact LX | ]. split; [ exact LY | exact Ea ].
Qed.

Lemma effectiveAspect_of_clamped_rectangle_witness :
  exists c frame : Rect.t,
    imageFrame state_square_live = val frame /\
    effectiveCrop state_square_live = val (clampPixelCropToFrame c frame) /\
    (0 <? Rect.W (clampPixelCropToFrame c frame)) = true /\
    30 / 30 = Rect.W (clampPixelCropToFrame c frame) /
              Rect.H (clampPixelCropToFrame c frame).
Proof.
  destruct (effectiveAspect_of_clamped_rectangle state_square_live (30 / 30))
    as (c & frame & Ef & _ & _ & _ & Ee & Wp & _ & _ & _ & Ea).
  - reflexivity.
  - exists c, frame. repeat split; assumption.
Defined.

(** X9.  The verdict is "compatible" exactly when an image is selected and
    there is an effective rectangle of positive width and height whose
    binary64 quotient width / height lies between min - epsilon and
    max + epsilon as binary64 computes them.  In particular there is no
    verdict "compatible" without an image or without an effective
    rectangle. *)
Theorem instagramCompatible_iff :
  forall s : State,
    instagramCompatible s = true <->
    truthy_source (source s) = true /\
    exists e : Rect.t,
      effectiveCrop s = val e /\
      (0 <? Rect.W e) = true /\ (0 <? Rect.H e) = true /\
      (INSTAGRAM_MIN_ASPECT - EPSILON <=? Rect.W e / Rect.H e) = true /\
      (Rect.W e / Rect.H e <=? INSTAGRAM_MAX_ASPECT + EPSILON) = true.
Proof.
  intros s. rewrite instagramCompatible_true. split.
  - intros (Es & a & Ea & Lo & Hi). split; [ exact Es | ].
    destruct (currentAspect_some s a Ea)
      as (c & frame & _ & _ & _ & _ & Ee & Wp & Hp & Eq).
    exists (clampPixelCropToFrame c frame). subst a.
    repeat split; assumption.
  - intros (Es & e & Ee & Wp & Hp & Lo & Hi). split; [ exact Es | ].
    exists (Rect.W e / Rect.H e).
    split; [ | split; assumption ].
    rewrite (currentAspect_of s e Ee). apply reportedAspect_proper.
    split; apply positive_nonzero; assumption.
Qed.

(** ** Crop State Reconciler: generated rectangles *)

(** A live rectangle of non-zero width and height over a usable stored
    frame: the effective rectangle is that rectangle clamped to the frame,
    and the effective aspect is the aspect of the clamped rectangle. *)
Lemma effective_of_live (s : State) (frame r : Rect.t) :
  imageFrame s = val frame -> livePixelCrop s = val r ->
  proper frame -> proper r ->
  effectiveCrop s = val (clampPixelCropToFrame r frame) /\
  currentAspect s = reportedAspect (clampPixelCropToFrame r frame).
Proof.
  intros Ef El Pf Pr.
  pose proof (effectiveCrop_live s frame Ef Pf r El Pr) as Ee.
  split; [ exact Ee | apply currentAspect_of; exact Ee ].
Qed.

(** The frame an image-loaded event stores. *)
Lemma handleImageLoaded_frame (compatibilityParam : option string)
    (img : Img.t) (frame : js Rect.t) (s : State) :
  imageFrame (handleImageLoaded compatibilityParam img frame s) =
  val (loadedFrame img frame).
Proof.
  unfold handleImageLoaded.
  fold (loadedFrame img frame).
  destruct (instagramCompatibilityEnabled compatibilityParam);
    [ reflexivity | ].
  cbv zeta.
  destruct (createCenteredCropInFrame (loadedFrame img frame)
              (aspect (activePreset
                 (setImageFrame (val (loadedFrame img frame)) s))));
    reflexivity.
Qed.

(** An image-loaded event in compatibility mode. *)
Lemma handleImageLoaded_compatible (compatibilityParam : option string)
    (img : Img.t) (frame : js Rect.t) (s : State) :
  instagramCompatibilityEnabled compatibilityParam = true ->
  handleImageLoaded compatibilityParam img frame s =
  s |> setImageFrame (val (loadedFrame img frame))
    |> setActivePreset ASPECT_PRESETS_0
    |> setCrop (val (createInstagramCompatibleCrop (loadedFrame img frame)))
    |> setCompletedCrop null
    |> setLivePixelCrop
         (val (createInstagramCompatibleCrop (loadedFrame img frame))).
Proof.
  intros E. unfold handleImageLoaded. rewrite E. reflexivity.
Qed.

(** An image-loaded event outside compatibility mode, when the generator
    gives a rectangle, and when it gives none. *)
Lemma handleImageLoaded_centered (compatibilityParam : option string)
    (img : Img.t) (frame : js Rect.t) (s : State) (r : Rect.t) :
  instagramCompatibilityEnabled compatibilityParam = false ->
  createCenteredCropInFrame (loadedFrame img frame)
    (aspect (activePreset s)) = Some r ->
  handleImageLoaded compatibilityParam img frame s =
  s |> setImageFrame (val (loadedFrame img frame))
    |> setCrop (val r)
    |> setCompletedCrop null
    |> setLivePixelCrop (val r).
Proof.
  intros E Er. unfold handleImageLoaded. rewrite E.
  fold (loadedFrame img frame). cbv zeta.
  simpl activePreset. rewrite Er. reflexivity.
Qed.

Lemma handleImageLoaded_nothing (compatibilityParam : option string)
    (img : Img.t) (frame : js Rect.t) (s : State) :
  instagramCompatibilityEnabled compatibilityParam = false ->
  createCenteredCropInFrame (loadedFrame img frame)
    (aspect (activePreset s)) = None ->
  handleImageLoaded compatibilityParam img frame s =
  s |> setImageFrame (val (loadedFrame img frame)).
Proof.
  intros E Er. unfold handleImageLoaded. rewrite E.
  fold (loadedFrame img frame). cbv zeta.
  simpl activePreset. rewrite Er. reflexivity.
Qed.

(** X10.  In compatibility mode, an image-loaded event forces the
    unconstrained preset, clears the completed rectangle (export is
    disabled), stores the frame (the one passed, or the image's own size
    when none is) and makes the generated rectangle the working and the
    live rectangle.  When the frame and the generated rectangle have
    non-zero width and height, the effective rectangle is the generated
    rectangle clamped to the frame, and the effective aspect is the aspect
    of that clamped rectangle. *)
Theorem imageLoaded_compatibility_mode :
  forall (compatibilityParam : option string) (img : Img.t)
         (frame : js Rect.t) (s : State),
    instagramCompatibilityEnabled compatibilityParam = true ->
    activePreset (step compatibilityParam s (imageLoaded img frame))
      = ASPECT_PRESETS_0 /\
    completedRectangle (step compatibilityParam s (imageLoaded img frame))
      = null /\
    imageFrame (step compatibilityParam s (imageLoaded img frame))
      = val (loadedFrame img frame) /\
    currentRectangle (step compatibilityParam s (imageLoaded img frame))
      = val (createInstagramCompatibleCrop (loadedFrame img frame)) /\
    livePixelCrop (step compatibilityParam s (imageLoaded img frame))
      = val (createInstagramCompatibleCrop (loadedFrame img frame)) /\
    renderedDisabledSave (step compatibilityParam s (imageLoaded img frame))
      = true /\
    (proper (loadedFrame img frame) ->
     proper (createInstagramCompatibleCrop (loadedFrame img frame)) ->
     effectiveCrop (step compatibilityParam s (imageLoaded img frame))
       = val (clampPixelCropToFrame
                (createInstagramCompatibleCrop (loadedFrame img frame))
                (loadedFrame img frame)) /\
     effectiveAspect (step compatibilityParam s (imageLoaded img frame))
       = reportedAspect
           (clampPixelCropToFrame
              (createInstagramCompatibleCrop (loadedFrame img frame))
              (loadedFrame img frame))).
Proof.
  intros compatibilityParam img frame s Eon.
  unfold step. simpl handle.
  rewrite (handleImageLoaded_compatible _ img frame s Eon).
  set (F := loadedFrame img frame) in *.
  set (r := createInstagramCompatibleCrop F).
  rewrite cleanup_same_source by reflexivity.
  set (s' := setLivePixelCrop (val r) _).
  split; [ reflexivity | ].
  split; [ reflexivity | ].
  split; [ reflexivity | ].
  split; [ reflexivity | ].
  split; [ reflexivity | ].
  split;
    [ unfold renderedDisabledSave, disabledSave; simpl;
      destruct (truthy_source (source s)); reflexivity | ].
  intros PF Pr.
  apply (effective_of_live s' F r); try reflexivity; assumption.
Qed.

(** The image 400 x 1000 with no frame passed: the generated rectangle is
    {0, 250, 400, 500}, the effective aspect 400 / 500 is within the
    tolerance and the verdict is "compatible". *)
Lemma imageLoaded_compatibility_mode_witness :
  effectiveCrop
    (step (Some "instagram"%string) state_with_source
       (imageLoaded img_400x1000 null))
  = val (clampPixelCropToFrame
           (createInstagramCompatibleCrop (loadedFrame img_400x1000 null))
           (loadedFrame img_400x1000 null)) /\
  effectiveAspect
    (step (Some "instagram"%string) state_with_source
       (imageLoaded img_400x1000 null)) = Some 0.8 /\
  isCompatible
    (step (Some "instagram"%string) state_with_source
       (imageLoaded img_400x1000 null)) = true.
Proof.
  destruct (imageLoaded_compatibility_mode (Some "instagram"%string)
              img_400x1000 null state_with_source eq_refl)
    as (_ & _ & _ & _ & _ & _ & H).
  destruct H as (Ee & Ea).
  - split; split; reflexivity.
  - split; split; reflexivity.
  - split; [ exact Ee | ]. split; [ rewrite Ea; reflexivity | reflexivity ].
Defined.

(** X11.  Outside compatibility mode, an image-loaded event whose frame has
    non-zero width and height stores the frame, makes the centered
    rectangle (for the aspect of the active preset) the working and live
    rectangle and clears the completed one; the preset is kept.  When the
    centered rectangle has non-zero width and height, the effective
    rectangle is the centered rectangle clamped to the frame, and the
    effective aspect is the aspect of that clamped rectangle. *)
Theorem imageLoaded_centered_mode :
  forall (compatibilityParam : option string) (img : Img.t)
         (frame : js Rect.t) (s : State),
    instagramCompatibilityEnabled compatibilityParam = false ->
    proper (loadedFrame img frame) ->
    exists r : Rect.t,
      createCenteredCropInFrame (loadedFrame img frame)
        (aspect (activePreset s)) = Some r /\
      currentRectangle (step compatibilityParam s (imageLoaded img frame))
        = val r /\
      livePixelCrop (step compatibilityParam s (imageLoaded img frame))
        = val r /\
      completedRectangle (step compatibilityParam s (imageLoaded img frame))
        = null /\
      imageFrame (step compatibilityParam s (imageLoaded img frame))
        = val (loadedFrame img frame) /\
      activePreset (step compatibilityParam s (imageLoaded img frame))
        = activePreset s /\
      (proper r ->
       effectiveCrop (step compatibilityParam s (imageLoaded img frame))
         = val (clampPixelCropToFrame r (loadedFrame img frame)) /\
       effectiveAspect (step compatibilityParam s (imageLoaded img frame))
         = reportedAspect
             (clampPixelCropToFrame r (loadedFrame img frame))).
Proof.
  intros compatibilityParam img frame s Eoff PF.
  set (F := loadedFrame img frame) in *.
  destruct (centered_some F (aspect (activePreset s)) PF) as (r & Er).
  exists r. split; [ exact Er | ].
  unfold step. simpl handle.
  rewrite (handleImageLoaded_centered _ img frame s r Eoff Er).
  fold F.
  rewrite cleanup_same_source by reflexivity.
  set (s' := setLivePixelCrop (val r) _).
  split; [ reflexivity | ].
  split; [ reflexivity | ].
  split; [ reflexivity | ].
  split; [ reflexivity | ].
  split; [ reflexivity | ].
  intros Pr.
  apply (effective_of_live s' F r); try reflexivity; assumption.
Qed.

(** The image 400 x 1000 under the unconstrained preset: the centered
    rectangle is 240 x 600 at {80, 200}. *)
Lemma imageLoaded_centered_mode_witness :
  exists r : Rect.t,
    createCenteredCropInFrame (loadedFrame img_400x1000 null)
      (aspect (activePreset state_with_source)) = Some r /\
    currentRectangle (step None state_with_source
                        (imageLoaded img_400x1000 null)) = val r /\
    Rect.equiv r (Rect.make 80 200 240 600).
Proof.
  destruct (imageLoaded_centered_mode None img_400x1000 null
              state_with_source) as (r & Er & Ec & _).
  - reflexivity.
  - split; split; reflexivity.
  - exists r. split; [ exact Er | ]. split; [ exact Ec | ].
    injection Er as Er. subst r. repeat split.
Defined.

(** The three ways a preset change ends: a rectangle in the target frame,
    a rectangle in the image's own size, or the preset alone. *)
Lemma handlePresetChange_target (preset : Preset) (imageRef : js Img.t)
    (frame : js Rect.t) (s : State) (target r : Rect.t) :
  js_or frame (imageFrame s) = val target -> proper target ->
  createCenteredCropInFrame target (aspect preset) = Some r ->
  handlePresetChange preset imageRef frame s =
  s |> setActivePreset preset
    |> setCrop (val r)
    |> setCompletedCrop null
    |> setLivePixelCrop (val r).
Proof.
  intros Et Hp Er. unfold handlePresetChange. cbv zeta.
  rewrite Et. apply guard_proper in Hp. rewrite Hp, Er. reflexivity.
Qed.

Lemma handlePresetChange_no_target (preset : Preset) (frame : js Rect.t)
    (s : State) :
  degenerate (js_or frame (imageFrame s)) ->
  match js_or frame (imageFrame s) with
  | val t =>
      if truthy_field (Rect.width t) && truthy_field (Rect.height t)
      then createCenteredCropInFrame t (aspect preset)
      else None
  | _ => None
  end = None.
Proof.
  intros Hd. apply guard_degenerate in Hd.
  destruct (js_or frame (imageFrame s)) as [ | | t]; try reflexivity.
  simpl in Hd. rewrite Hd. reflexivity.
Qed.

Lemma handlePresetChange_fallback (preset : Preset) (image : Img.t)
    (frame : js Rect.t) (s : State) (r : Rect.t) :
  degenerate (js_or frame (imageFrame s)) ->
  nonzero (Img.width image) -> nonzero (Img.height image) ->
  createCenteredCropInFrame
    (Rect.make 0 0 (Img.width image) (Img.height image)) (aspect preset)
    = Some r ->
  handlePresetChange preset (val image) frame s =
  s |> setActivePreset preset
    |> setCrop (val r)
    |> setCompletedCrop null
    |> setLivePixelCrop (val r)
    |> setImageFrame
         (val (Rect.make 0 0 (Img.width image) (Img.height image))).
Proof.
  intros Hd HW HH Er. unfold handlePresetChange. cbv zeta.
  rewrite (handlePresetChange_no_target preset frame s Hd).
  apply truthy_true in HW. apply truthy_true in HH. rewrite HW, HH.
  simpl negb. simpl orb. cbv iota.
  unfold Rect.make in Er. rewrite Er. reflexivity.
Qed.

Lemma handlePresetChange_preset_only (preset : Preset) (imageRef : js Img.t)
    (frame : js Rect.t) (s : State) :
  degenerate (js_or frame (imageFrame s)) ->
  match imageRef with
  | val image => falsy (Img.width image) \/ falsy (Img.height image)
  | _ => True
  end ->
  handlePresetChange preset imageRef frame s = setActivePreset preset s.
Proof.
  intros Hd Hi. unfold handlePresetChange. cbv zeta.
  rewrite (handlePresetChange_no_target preset frame s Hd).
  destruct imageRef as [ | | image]; try reflexivity.
  destruct Hi as [Hi | Hi]; apply truthy_false in Hi; rewrite Hi.
  - reflexivity.
  - rewrite orb_true_r. reflexivity.
Qed.

(** X12.  A preset change with a target frame (the frame passed, else the
    stored one) of non-zero width and height: the preset becomes active,
    the rectangle centered in the target frame becomes the working and live
    rectangle, the completed rectangle is cleared (export is disabled), and
    the stored frame is left as it was.  When no frame is passed and the
    centered rectangle has non-zero width and height, the effective
    rectangle is the centered rectangle clamped to the stored frame, and
    the effective aspect is the aspect of that clamped rectangle. *)
Theorem presetChanged_regenerates :
  forall (compatibilityParam : option string) (preset : Preset)
         (imageRef : js Img.t) (frame : js Rect.t) (s : State)
         (target : Rect.t),
    js_or frame (imageFrame s) = val target ->
    proper target ->
    exists r : Rect.t,
      createCenteredCropInFrame target (aspect preset) = Some r /\
      activePreset
        (step compatibilityParam s (presetChanged preset imageRef frame))
        = preset /\
      currentRectangle
        (step compatibilityParam s (presetChanged preset imageRef frame))
        = val r /\
      livePixelCrop
        (step compatibilityParam s (presetChanged preset imageRef frame))
        = val r /\
      completedRectangle
        (step compatibilityParam s (presetChanged preset imageRef frame))
        = null /\
      renderedDisabledSave
        (step compatibilityParam s (presetChanged preset imageRef frame))
        = true /\
      imageFrame
        (step compatibilityParam s (presetChanged preset imageRef frame))
        = imageFrame s /\
      (absent frame -> proper r ->
       effectiveCrop
         (step compatibilityParam s (presetChanged preset imageRef frame))
         = val (clampPixelCropToFrame r target) /\
       effectiveAspect
         (step compatibilityParam s (presetChanged preset imageRef frame))
         = reportedAspect (clampPixelCropToFrame r target)).
Proof.
  intros compatibilityParam preset imageRef frame s target Et Pt.
  destruct (centered_some target (aspect preset) Pt) as (r & Er).
  exists r. split; [ exact Er | ].
  unfold step. simpl handle.
  rewrite (handlePresetChange_target preset imageRef frame s target r Et Pt Er).
  rewrite cleanup_same_source by reflexivity.
  set (s' := setLivePixelCrop (val r) _).
  split; [ reflexivity | ].
  split; [ reflexivity | ].
  split; [ reflexivity | ].
  split; [ reflexivity | ].
  split;
    [ unfold renderedDisabledSave, disabledSave; simpl;
      destruct (truthy_source (source s)); reflexivity | ].
  split; [ reflexivity | ].
  intros Habs Pr.
  assert (Ef : imageFrame s' = val target).
  { destruct frame as [ | | f]; [ exact Et | exact Et | contradiction ]. }
  apply (effective_of_live s' target r); try reflexivity; assumption.
Qed.

(** The square preset on the stored frame 100 x 100: the centered
    rectangle is 80 x 80 at {10, 10}, and the effective aspect is 1. *)
Lemma presetChanged_regenerates_witness :
  effectiveAspect
    (step None state_square_live
       (presetChanged square_preset null undefined)) = Some 1.
Proof.
  destruct (presetChanged_regenerates None square_preset null undefined
              state_square_live frame_100x100)
    as (r & Er & _ & _ & _ & _ & _ & _ & H).
  - reflexivity.
  - split; split; reflexivity.
  - injection Er as Er. subst r.
    destruct H as (_ & Ha).
    + exact I.
    + split; split; reflexivity.
    + rewrite Ha. reflexivity.
Defined.

(** X13.  A preset change with no usable target frame (none passed and none
    stored, or one of zero width or height).  With an image of non-zero
    width and height, the image's own size at the origin becomes the stored
    frame, the rectangle centered in it becomes the working and the live
    rectangle, and the completed rectangle is cleared; when the centered
    rectangle has non-zero width and height, the effective rectangle is
    that rectangle clamped to the new frame.  With no image, or an image of
    zero width or height, only the active preset changes: every rectangle,
    the completed one included, stays. *)
Theorem presetChanged_without_frame :
  forall (compatibilityParam : option string) (preset : Preset)
         (imageRef : js Img.t) (frame : js Rect.t) (s : State),
    degenerate (js_or frame (imageFrame s)) ->
    (forall image : Img.t,
       imageRef = val image ->
       nonzero (Img.width image) -> nonzero (Img.height image) ->
       exists r : Rect.t,
         createCenteredCropInFrame
           (Rect.make 0 0 (Img.width image) (Img.height image))
           (aspect preset) = Some r /\
         imageFrame
           (step compatibilityParam s (presetChanged preset imageRef frame))
           = val (Rect.make 0 0 (Img.width image) (Img.height image)) /\
         currentRectangle
           (step compatibilityParam s (presetChanged preset imageRef frame))
           = val r /\
         livePixelCrop
           (step compatibilityParam s (presetChanged preset imageRef frame))
           = val r /\
         completedRectangle
           (step compatibilityParam s (presetChanged preset imageRef frame))
           = null /\
         activePreset
           (step compatibilityParam s (presetChanged preset imageRef frame))
           = preset /\
         (proper r ->
          effectiveCrop
            (step compatibilityParam s (presetChanged preset imageRef frame))
            = val (clampPixelCropToFrame r
                     (Rect.make 0 0 (Img.width image) (Img.height image))))) /\
    (match imageRef with
     | val image => falsy (Img.width image) \/ falsy (Img.height image)
     | _ => True
     end ->
     step compatibilityParam s (presetChanged preset imageRef frame)
       = setActivePreset preset s).
Proof.
  intros compatibilityParam preset imageRef frame s Hd. split.
  - intros image Ei HW HH. subst imageRef.
    set (F := Rect.make 0 0 (Img.width image) (Img.height image)).
    assert (PF : proper F) by (split; assumption).
    destruct (centered_some F (aspect preset) PF) as (r & Er).
    exists r. split; [ exact Er | ].
    unfold step. simpl handle.
    rewrite (handlePresetChange_fallback preset image frame s r Hd HW HH Er).
    fold F. rewrite cleanup_same_source by reflexivity.
    set (s' := setImageFrame (val F) _).
    repeat (split; [ reflexivity | ]).
    intros Pr.
    apply (effective_of_live s' F r); try reflexivity; assumption.
  - intros Hi. unfold step. simpl handle.
    rewrite (handlePresetChange_preset_only preset imageRef frame s Hd Hi).
    apply cleanup_same_source. reflexivity.
Qed.

Lemma presetChanged_without_frame_witness :
  (exists r : Rect.t,
     currentRectangle
       (step None state_with_source
          (presetChanged square_preset (val img_400x1000) null)) = val r /\
     imageFrame
       (step None state_with_source
          (presetChanged square_preset (val img_400x1000) null))
       = val (Rect.make 0 0 400 1000)) /\
  step None state_with_source (presetChanged square_preset (val img_0x0) null)
    = setActivePreset square_preset state_with_source.
Proof.
  assert (Hd : degenerate (js_or null (imageFrame state_with_source)))
    by exact I.
  split.
  - destruct (presetChanged_without_frame None square_preset
                (val img_400x1000) null state_with_source Hd) as (H & _).
    destruct (H img_400x1000 eq_refl) as (r & _ & Ef & Ec & _).
    + split; reflexivity.
    + split; reflexivity.
    + exists r. split; [ exact Ec | exact Ef ].
  - apply (presetChanged_without_frame None square_preset (val img_0x0) null
             state_with_source Hd).
    left. left. reflexivity.
Defined.

(** ** Export readiness *)

(** Case analysis on whatever a handler branches on. *)
Ltac handler_cases :=
  repeat match goal with
  | |- context [match ?x with _ => _ end] => destruct x eqn:?
  | |- context [if ?b then _ else _] => destruct b eqn:?
  end.

(** Only a drag commit writes a completed rectangle: every other handler
    leaves the cell as it is or writes null. *)
Lemma handle_completedCrop (compatibilityParam : option string) (e : Event)
    (s : State) :
  is_commit e = false ->
  completedCrop (handle compatibilityParam e s) = completedCrop s \/
  completedCrop (handle compatibilityParam e s) = null.
Proof.
  intros He. destruct e; simpl in He; try discriminate He; simpl handle.
  - unfold handleImageSelect. handler_cases; simpl; tauto.
  - unfold handleImageLoaded. cbv zeta. handler_cases; simpl; tauto.
  - unfold handlePresetChange. cbv zeta. handler_cases; simpl; tauto.
  - left. apply (handleCropChange_fields pixelCrop percentCrop frame s).
  - right. reflexivity.
  - left. reflexivity.
Qed.

Lemma step_completedCrop (compatibilityParam : option string) (e : Event)
    (s : State) :
  completedCrop (step compatibilityParam s e) =
  completedCrop (handle compatibilityParam e s).
Proof.
  unfold step. apply (sourceEffectCleanup_fields s).
Qed.

Lemma disabledSave_null (source : js string) :
  disabledSave source null = true.
Proof.
  unfold disabledSave. simpl. destruct (truthy_source source); reflexivity.
Qed.

(** X14.  From a state with no completed rectangle (the first render, or
    after a reset, a new image or a regenerated rectangle), no sequence of
    events without a drag commit produces one: the completed rectangle
    stays null and export stays disabled. *)
Theorem export_disabled_until_commit :
  forall (compatibilityParam : option string) (events : list Event)
         (s : State),
    completedCrop s = null ->
    forallb (fun e => negb (is_commit e)) events = true ->
    completedRectangle (run compatibilityParam s events) = null /\
    renderedDisabledSave (run compatibilityParam s events) = true.
Proof.
  intros compatibilityParam events.
  induction events as [ | e events IH]; intros s Hnull Hno.
  - simpl. split; [ exact Hnull | ].
    unfold renderedDisabledSave. rewrite Hnull. apply disabledSave_null.
  - simpl in Hno. apply andb_true_iff in Hno. destruct Hno as (He & Hno).
    apply negb_true_iff in He.
    change (run compatibilityParam s (e :: events))
      with (run compatibilityParam (step compatibilityParam s e) events).
    apply IH; [ | exact Hno ].
    rewrite step_completedCrop.
    destruct (handle_completedCrop compatibilityParam e s He) as [E | E];
      [ rewrite E; exact Hnull | exact E ].
Qed.

Lemma export_disabled_until_commit_witness :
  completedRectangle
    (run None (initialState None)
       [ imageSelected (val "photo.png"%string) "blob:1"%string;
         imageLoaded img_400x1000 null;
         cropDragged rect_50x20 rect_50x20 null;
         presetChanged square_preset (val img_400x1000) undefined ]) = null /\
  renderedDisabledSave
    (run None (initialState None)
       [ imageSelected (val "photo.png"%string) "blob:1"%string;
         imageLoaded img_400x1000 null;
         cropDragged rect_50x20 rect_50x20 null;
         presetChanged square_preset (val img_400x1000) undefined ]) = true.
Proof.
  apply (export_disabled_until_commit None
           [ imageSelected (val "photo.png"%string) "blob:1"%string;
             imageLoaded img_400x1000 null;
             cropDragged rect_50x20 rect_50x20 null;
             presetChanged square_preset (val img_400x1000) undefined ]
           (initialState None)); reflexivity.
Defined.

(** X15.  Export is enabled exactly when an image is selected and there is
    a completed rectangle whose width and height are both at least 2. *)
Theorem disabledSave_false_iff :
  forall (source : js string) (completedCrop : js Rect.t),
    disabledSave source completedCrop = false <->
    truthy_source source = true /\
    exists r : Rect.t,
      completedCrop = val r /\
      (2 <=? Rect.W r) = true /\ (2 <=? Rect.H r) = true.
Proof.
  intros source completedCrop. unfold disabledSave. split.
  - destruct (truthy_source source); [ | intros C; discriminate C ].
    destruct completedCrop as [ | | r]; try (intros C; discriminate C).
    simpl opt_chain. rewrite !truthy_field_nullish.
    fold (Rect.W r) (Rect.H r). simpl negb at 1. simpl orb.
    destruct (truthy (Rect.W r)) eqn:TW; [ | intros C; discriminate C ].
    destruct (truthy (Rect.H r)) eqn:TH; [ | intros C; discriminate C ].
    simpl. rewrite orb_false_iff. intros (HW & HH).
    apply truthy_true in TW. apply truthy_true in TH.
    destruct TW as (_ & NW). destruct TH as (_ & NH).
    split; [ reflexivity | ]. exists r.
    split; [ reflexivity | ]. split; order64.
  - intros (Es & r & Er & HW & HH). subst completedCrop.
    simpl opt_chain. rewrite !truthy_field_nullish.
    fold (Rect.W r) (Rect.H r).
    pose proof (at_least_2_nonzero _ HW) as TW. apply truthy_true in TW.
    pose proof (at_least_2_nonzero _ HH) as TH. apply truthy_true in TH.
    rewrite Es, TW, TH. simpl. apply orb_false_iff. split; order64.
Qed.

(** With an image and a completed rectangle of at least 2 x 2, export is
    enabled. *)
Lemma export_enabled (source : js string) (r : Rect.t) :
  truthy_source source = true ->
  (2 <=? Rect.W r) = true -> (2 <=? Rect.H r) = true ->
  disabledSave source (val r) = false.
Proof.
  intros Es HW HH. unfold disabledSave.
  simpl opt_chain. rewrite !truthy_field_nullish.
  fold (Rect.W r) (Rect.H r).
  pose proof (at_least_2_nonzero _ HW) as TW. apply truthy_true in TW.
  pose proof (at_least_2_nonzero _ HH) as TH. apply truthy_true in TH.
  rewrite Es, TW, TH. simpl. apply orb_false_iff. split; order64.
Qed.

(** X16.  A drag commit against a frame (the one passed, else the stored
    one), with an image selected, whose rectangle clamped to the frame is
    at least 2 x 2: the clamped rectangle becomes the completed and the
    live rectangle and the frame is stored, while the working rectangle is
    left alone, and export is enabled.  When the frame has non-zero width
    and height, the effective rectangle is the completed rectangle clamped
    to the frame once more, with the same x and y, and the effective aspect
    is the aspect of that rectangle. *)
Theorem cropCommitted_enables_export :
  forall (compatibilityParam : option string) (s : State)
         (pixelCrop : Rect.t) (frame : js Rect.t) (active : Rect.t),
    js_or frame (imageFrame s) = val active ->
    truthy_source (source s) = true ->
    (2 <=? Rect.W (clampPixelCropToFrame pixelCrop active)) = true ->
    (2 <=? Rect.H (clampPixelCropToFrame pixelCrop active)) = true ->
    completedRectangle
      (step compatibilityParam s (cropCommitted pixelCrop frame))
      = val (clampPixelCropToFrame pixelCrop active) /\
    livePixelCrop (step compatibilityParam s (cropCommitted pixelCrop frame))
      = val (clampPixelCropToFrame pixelCrop active) /\
    imageFrame (step compatibilityParam s (cropCommitted pixelCrop frame))
      = val active /\
    currentRectangle
      (step compatibilityParam s (cropCommitted pixelCrop frame))
      = currentRectangle s /\
    renderedDisabledSave
      (step compatibilityParam s (cropCommitted pixelCrop frame)) = false /\
    (proper active ->
     exists e : Rect.t,
       effectiveCrop
         (step compatibilityParam s (cropCommitted pixelCrop frame)) = val e /\
       e = clampPixelCropToFrame
             (clampPixelCropToFrame pixelCrop active) active /\
       Rect.x e = Rect.x (clampPixelCropToFrame pixelCrop active) /\
       Rect.y e = Rect.y (clampPixelCropToFrame pixelCrop active) /\
       effectiveAspect
         (step compatibilityParam s (cropCommitted pixelCrop frame))
         = reportedAspect e).
Proof.
  intros compatibilityParam s pixelCrop frame active Ea Es HW HH.
  destruct (handleCropComplete_fields pixelCrop frame s)
    as (Ec & El & Ef & Ew & Esrc & _).
  cbv zeta in Ec, El, Ef. rewrite Ea in Ec, El, Ef.
  unfold step. simpl handle.
  rewrite cleanup_same_source by exact Esrc.
  set (s' := handleCropComplete pixelCrop frame s) in *.
  set (c := clampPixelCropToFrame pixelCrop active) in *.
  split; [ exact Ec | ].
  split; [ exact El | ].
  split; [ exact Ef | ].
  split; [ exact Ew | ].
  split.
  { unfold renderedDisabledSave. rewrite Ec, Esrc.
    apply export_enabled; assumption. }
  intros Pa.
  assert (Pc : proper c)
    by (split; apply at_least_2_nonzero; assumption).
  destruct (effective_of_live s' active c Ef El Pa Pc) as (Ee & Easp).
  destruct (clamp_again_xy pixelCrop active) as (EX & EY).
  eexists. split; [ exact Ee | ].
  split; [ reflexivity | ].
  split; [ exact EX | ]. split; [ exact EY | exact Easp ].
Qed.

Lemma cropCommitted_enables_export_witness :
  renderedDisabledSave
    (step None state_square_live (cropCommitted rect_50x20 undefined))
    = false /\
  completedRectangle
    (step None state_square_live (cropCommitted rect_50x20 undefined))
    = val (clampPixelCropToFrame rect_50x20 frame_100x100).
Proof.
  destruct (cropCommitted_enables_export None state_square_live rect_50x20
              undefined frame_100x100)
    as (Ec & _ & _ & _ & Hen & _).
  - reflexivity.
  - reflexivity.
  - reflexivity.
  - reflexivity.
  - split; [ exact Hen | exact Ec ].
Defined.

(** X17.  A drag update or a drag commit with no frame at all (none passed,
    none stored) takes the rectangle as it is, unclamped, and stores no
    frame: the drag update makes it the working and live rectangle, the
    commit makes it the completed and live rectangle, so that export
    readiness is decided by the raw rectangle.  In both cases there is no
    effective rectangle and the effective aspect is null. *)
Theorem drag_without_frame :
  forall (compatibilityParam : option string) (s : State)
         (pixelCrop percentCrop : Rect.t) (frame : js Rect.t),
    absent (js_or frame (imageFrame s)) ->
    (currentRectangle
       (step compatibilityParam s (cropDragged pixelCrop percentCrop frame))
       = val pixelCrop /\
     livePixelCrop
       (step compatibilityParam s (cropDragged pixelCrop percentCrop frame))
       = val pixelCrop /\
     imageFrame
       (step compatibilityParam s (cropDragged pixelCrop percentCrop frame))
       = imageFrame s /\
     effectiveCrop
       (step compatibilityParam s (cropDragged pixelCrop percentCrop frame))
       = null /\
     effectiveAspect
       (step compatibilityParam s (cropDragged pixelCrop percentCrop frame))
       = None) /\
    (completedRectangle
       (step compatibilityParam s (cropCommitted pixelCrop frame))
       = val pixelCrop /\
     livePixelCrop
       (step compatibilityParam s (cropCommitted pixelCrop frame))
       = val pixelCrop /\
     imageFrame (step compatibilityParam s (cropCommitted pixelCrop frame))
       = imageFrame s /\
     effectiveCrop (step compatibilityParam s (cropCommitted pixelCrop frame))
       = null /\
     effectiveAspect
       (step compatibilityParam s (cropCommitted pixelCrop frame))
       = None /\
     renderedDisabledSave
       (step compatibilityParam s (cropCommitted pixelCrop frame))
       = disabledSave (source s) (val pixelCrop)).
Proof.
  intros compatibilityParam s pixelCrop percentCrop frame Habs.
  assert (Hf : absent frame /\ absent (imageFrame s)).
  { destruct frame as [ | | f]; simpl in *; tauto. }
  destruct Hf as (Hfr & Hst).
  assert (Hd : forall t : State,
             imageFrame t = imageFrame s ->
             effectiveCrop t = null /\ effectiveAspect t = None).
  { intros t Et.
    assert (E : effectiveCrop t = null).
    { apply effectiveCrop_no_frame. rewrite Et.
      destruct (imageFrame s); simpl in *; tauto. }
    split; [ exact E | apply currentAspect_null; exact E ]. }
  split.
  - destruct (handleCropChange_fields pixelCrop percentCrop frame s)
      as (Ec & El & Ef & _ & Esrc & _).
    cbv zeta in Ec, El, Ef.
    unfold step. simpl handle. rewrite cleanup_same_source by exact Esrc.
    assert (Ef' : imageFrame (handleCropChange pixelCrop percentCrop frame s)
                  = imageFrame s).
    { rewrite Ef. destruct frame; simpl in *; tauto. }
    destruct (js_or frame (imageFrame s)) as [ | | f]; try contradiction;
      (split; [ exact Ec | ]; split; [ exact El | ];
       split; [ exact Ef' | ]; apply Hd; exact Ef').
  - destruct (handleCropComplete_fields pixelCrop frame s)
      as (Ec & El & Ef & _ & Esrc & _).
    cbv zeta in Ec, El, Ef.
    unfold step. simpl handle. rewrite cleanup_same_source by exact Esrc.
    assert (Ef' : imageFrame (handleCropComplete pixelCrop frame s)
                  = imageFrame s).
    { rewrite Ef. destruct frame; simpl in *; tauto. }
    unfold renderedDisabledSave. rewrite Esrc.
    destruct (js_or frame (imageFrame s)) as [ | | f]; try contradiction;
      (split; [ exact Ec | ]; split; [ exact El | ];
       split; [ exact Ef' | ];
       split; [ apply Hd; exact Ef' | ];
       split; [ apply Hd; exact Ef' | rewrite Ec; reflexivity ]).
Qed.

Lemma drag_without_frame_witness :
  currentRectangle
    (step None (initialState None) (cropDragged rect_50x20 rect_50x20 null))
    = val rect_50x20 /\
  effectiveAspect
    (step None (initialState None) (cropDragged rect_50x20 rect_50x20 null))
    = None.
Proof.
  destruct (drag_without_frame None (initialState None) rect_50x20 rect_50x20
              null) as ((Ec & _ & _ & _ & Ea) & _).
  - exact I.
  - split; [ exact Ec | exact Ea ].
Defined.

(** ** Selecting an image, and the blob URLs *)

(** Revoking touches the registry only. *)
Lemma revokeIfSet_fields (v : js string) (s : State) :
  source (revokeIfSet v s) = source s /\
  activePreset (revokeIfSet v s) = activePreset s /\
  crop (revokeIfSet v s) = crop s /\
  completedCrop (revokeIfSet v s) = completedCrop s /\
  livePixelCrop (revokeIfSet v s) = livePixelCrop s /\
  imageFrame (revokeIfSet v s) = imageFrame s /\
  isErrorModalOpen (revokeIfSet v s) = isErrorModalOpen s.
Proof.
  unfold revokeIfSet.
  destruct v as [ | | u]; try (repeat split; reflexivity).
  destruct (truthy_source (val u)); repeat split; reflexivity.
Qed.

(** What it adds to the registry: nothing, or the URL it is given. *)
Lemma revokeIfSet_revoked (v : js string) (s : State) (x : string) :
  In x (revoked (revokeIfSet v s)) -> In x (revoked s) \/ v = val x.
Proof.
  unfold revokeIfSet.
  destruct v as [ | | u]; try (intros H; left; exact H).
  destruct (truthy_source (val u)); simpl; intros H.
  - destruct H as [H | H]; [ right; rewrite H; reflexivity | left; exact H ].
  - left. exact H.
Qed.

Lemma revokeIfSet_revokes (u : string) (s : State) :
  u <> ""%string -> In u (revoked (revokeIfSet (val u) s)).
Proof.
  intros Hu. unfold revokeIfSet, truthy_source.
  destruct (String.eqb u "") eqn:E.
  - apply String.eqb_eq in E. contradiction.
  - simpl. left. reflexivity.
Qed.

(** X18.  Selecting a file installs the new source and discards the
    completed rectangle, the live rectangle and the frame, so that until the
    image loads there is no effective rectangle, no aspect, no verdict
    "compatible" and no export; the working rectangle and the active preset
    of the image before are kept.  Without a file the state does not
    change. *)
Theorem imageSelected_discards :
  forall (compatibilityParam : option string) (s : State)
         (file nextUrl : string),
    (source (step compatibilityParam s (imageSelected (val file) nextUrl))
       = val nextUrl /\
     completedRectangle
       (step compatibilityParam s (imageSelected (val file) nextUrl))
       = null /\
     livePixelCrop
       (step compatibilityParam s (imageSelected (val file) nextUrl))
       = null /\
     imageFrame (step compatibilityParam s (imageSelected (val file) nextUrl))
       = null /\
     effectiveCrop
       (step compatibilityParam s (imageSelected (val file) nextUrl))
       = null /\
     effectiveAspect
       (step compatibilityParam s (imageSelected (val file) nextUrl))
       = None /\
     isCompatible
       (step compatibilityParam s (imageSelected (val file) nextUrl))
       = false /\
     renderedDisabledSave
       (step compatibilityParam s (imageSelected (val file) nextUrl))
       = true /\
     currentRectangle
       (step compatibilityParam s (imageSelected (val file) nextUrl))
       = currentRectangle s /\
     activePreset
       (step compatibilityParam s (imageSelected (val file) nextUrl))
       = activePreset s) /\
    step compatibilityParam s (imageSelected null nextUrl) = s /\
    step compatibilityParam s (imageSelected undefined nextUrl) = s.
Proof.
  intros compatibilityParam s file nextUrl.
  split; [ | split; apply cleanup_same_source; reflexivity ].
  set (s' := step compatibilityParam s (imageSelected (val file) nextUrl)).
  destruct (sourceEffectCleanup_fields s
              (handle compatibilityParam (imageSelected (val file) nextUrl) s))
    as (Es & Ep & Ec & Ed & El & Ef & _).
  fold (step compatibilityParam s (imageSelected (val file) nextUrl))
    in Es, Ep, Ec, Ed, El, Ef.
  fold s' in Es, Ep, Ec, Ed, El, Ef.
  simpl in Es, Ep, Ec, Ed, El, Ef.
  destruct (revokeIfSet_fields (source s) s) as (_ & Rp & Rc & _).
  assert (Ee : effectiveCrop s' = null).
  { apply effectiveCrop_no_frame. rewrite Ef. exact I. }
  assert (Ea : currentAspect s' = None) by (apply currentAspect_null; exact Ee).
  split; [ exact Es | ].
  split; [ exact Ed | ].
  split; [ exact El | ].
  split; [ exact Ef | ].
  split; [ exact Ee | ].
  split; [ exact Ea | ].
  split.
  { unfold isCompatible, instagramCompatible. rewrite Ea. simpl.
    rewrite orb_true_r. reflexivity. }
  split.
  { unfold renderedDisabledSave. rewrite Ed. apply disabledSave_null. }
  split.
  { unfold currentRectangle. rewrite Ec. exact Rc. }
  rewrite Ep. exact Rp.
Qed.

(** What a handler adds to the registry is the source it started from. *)
Lemma handle_revoked (compatibilityParam : option string) (e : Event)
    (s : State) (x : string) :
  In x (revoked (handle compatibilityParam e s)) ->
  In x (revoked s) \/ source s = val x.
Proof.
  destruct e; simpl handle.
  - unfold handleImageSelect. destruct file; simpl; try tauto.
    apply revokeIfSet_revoked.
  - unfold handleImageLoaded. cbv zeta. handler_cases; simpl; tauto.
  - unfold handlePresetChange. cbv zeta. handler_cases; simpl; tauto.
  - destruct (handleCropChange_fields pixelCrop percentCrop frame s)
      as (_ & _ & _ & _ & _ & _ & _ & E).
    rewrite E. tauto.
  - unfold handleCropComplete. cbv zeta. handler_cases; simpl; tauto.
  - unfold handleReset. simpl. apply revokeIfSet_revoked.
  - simpl. tauto.
Qed.

Lemma sourceEffectCleanup_revoked (before after : State) (x : string) :
  In x (revoked (sourceEffectCleanup before after)) ->
  In x (revoked after) \/ source before = val x.
Proof.
  unfold sourceEffectCleanup.
  destruct (source before) as [ | | u]; try tauto.
  destruct (source after) as [ | | v].
  - intros H. apply revokeIfSet_revoked in H. tauto.
  - intros H. apply revokeIfSet_revoked in H. tauto.
  - destruct (String.eqb u v); [ tauto | ].
    intros H. apply revokeIfSet_revoked in H. tauto.
Qed.

(** The cleanup revokes a source that was replaced. *)
Lemma sourceEffectCleanup_revokes (before after : State) (u : string) :
  source before = val u -> u <> ""%string ->
  source after <> val u ->
  In u (revoked (sourceEffectCleanup before after)).
Proof.
  intros Eb Hu Hn. unfold sourceEffectCleanup. rewrite Eb.
  destruct (source after) as [ | | v].
  - apply revokeIfSet_revokes. exact Hu.
  - apply revokeIfSet_revokes. exact Hu.
  - destruct (String.eqb u v) eqn:E.
    + apply String.eqb_eq in E. subst v. contradiction.
    + apply revokeIfSet_revokes. exact Hu.
Qed.

(** Nothing leaves the registry. *)
Lemma sourceEffectCleanup_keeps (before after : State) (x : string) :
  In x (revoked after) -> In x (revoked (sourceEffectCleanup before after)).
Proof.
  intros H. unfold sourceEffectCleanup, revokeIfSet.
  destruct (source before) as [ | | u]; try exact H.
  destruct (source after) as [ | | v];
    try destruct (String.eqb u v);
    destruct (truthy_source (val u)); simpl; tauto.
Qed.

(** X19.  The only URL an event ever revokes is the source the state had
    before the event; and a reset, and the selection of a file, do revoke
    the (non-empty) source they replace. *)
Theorem revokes_only_the_replaced_source :
  forall (compatibilityParam : option string) (s : State),
    (forall (e : Event) (x : string),
       In x (revoked (step compatibilityParam s e)) ->
       In x (revoked s) \/ source s = val x) /\
    (forall u : string,
       source s = val u -> u <> ""%string ->
       In u (revoked (step compatibilityParam s reset)) /\
       forall file nextUrl : string,
         In u (revoked
                 (step compatibilityParam s
                    (imageSelected (val file) nextUrl)))).
Proof.
  intros compatibilityParam s. split.
  - intros e x H. unfold step in H.
    apply sourceEffectCleanup_revoked in H. destruct H as [H | H].
    + apply (handle_revoked compatibilityParam e s x H).
    + right. exact H.
  - intros u Eu Hu. split.
    + unfold step. apply (sourceEffectCleanup_revokes _ _ u Eu Hu).
      simpl. discriminate.
    + intros file nextUrl. unfold step.
      apply sourceEffectCleanup_keeps. simpl handle.
      unfold handleImageSelect. simpl revoked. rewrite Eu.
      apply revokeIfSet_revokes. exact Hu.
Qed.

Lemma revokes_only_the_replaced_source_witness :
  In "blob:1"%string (revoked (step None state_with_source reset)) /\
  (In "blob:2"%string
     (revoked (step None state_with_source
                 (imageSelected (val "b.png"%string) "blob:2"%string))) ->
   False).
Proof.
  destruct (revokes_only_the_replaced_source None state_with_source)
    as (Honly & Hdoes).
  split.
  - apply (Hdoes "blob:1"%string); [ reflexivity | discriminate ].
  - intros H. apply Honly in H. destruct H as [H | H].
    + exact H.
    + discriminate H.
Defined.

(** ** An invariant of the state *)

Lemma handle_well_formed (compatibilityParam : option string) (e : Event)
    (s : State) :
  well_formed s -> well_formed (handle compatibilityParam e s).
Proof.
  unfold well_formed. intros (Hc & Hl & Hf & Hs & Hcl).
  destruct e; simpl handle.
  - unfold handleImageSelect. destruct file; try tauto.
    simpl. repeat split; try discriminate.
    intros (c & C). discriminate C.
  - unfold handleImageLoaded. cbv zeta. handler_cases; simpl;
      (repeat split; try discriminate; try assumption;
       try (intros (c & C); discriminate C)).
  - unfold handlePresetChange. cbv zeta. handler_cases; simpl;
      (repeat split; try discriminate; try assumption;
       try (intros (c & C); discriminate C)).
  - destruct (handleCropChange_fields pixelCrop percentCrop frame s)
      as (_ & El & Ef & Ec & Es & _).
    cbv zeta in El, Ef. rewrite El, Ef, Ec, Es.
    repeat split; try discriminate; try assumption.
    + destruct frame; simpl; try assumption; discriminate.
    + intros _. eexists. reflexivity.
  - destruct (handleCropComplete_fields pixelCrop frame s)
      as (Ec & El & Ef & _ & Es & _).
    cbv zeta in Ec, El, Ef. rewrite El, Ef, Ec, Es.
    repeat split; try discriminate; try assumption.
    + destruct frame; simpl; try assumption; discriminate.
    + intros _. eexists. reflexivity.
  - simpl. repeat split; try discriminate.
    intros (c & C). discriminate C.
  - simpl. repeat split; assumption.
Qed.

Lemma step_well_formed (compatibilityParam : option string) (e : Event)
    (s : State) :
  well_formed s -> well_formed (step compatibilityParam s e).
Proof.
  intros H. apply (handle_well_formed compatibilityParam e) in H.
  unfold well_formed, step in *.
  destruct (sourceEffectCleanup_fields s (handle compatibilityParam e s))
    as (Es & _ & _ & Ec & El & Ef & _).
  rewrite Es, Ec, El, Ef. exact H.
Qed.

(** X20.  In every state reached from the first render by any sequence of
    events, the source, the completed rectangle, the live rectangle and the
    frame are null or present, never undefined, and a completed rectangle
    never exists without a live rectangle.  Every event keeps this. *)
Theorem reachable_well_formed :
  forall (compatibilityParam errorParam : option string),
    (forall (s : State) (e : Event),
       well_formed s -> well_formed (step compatibilityParam s e)) /\
    (forall events : list Event,
       well_formed
         (run compatibilityParam (initialState errorParam) events)).
Proof.
  intros compatibilityParam errorParam. split.
  - intros s e. apply step_well_formed.
  - intros events.
    assert (H0 : well_formed (initialState errorParam)).
    { unfold well_formed. simpl. repeat split; try discriminate.
      intros (c & C). discriminate C. }
    revert H0. generalize (initialState errorParam).
    induction events as [ | e events IH]; intros s Hs.
    + exact Hs.
    + change (run compatibilityParam s (e :: events))
        with (run compatibilityParam (step compatibilityParam s e) events).
      apply IH. apply step_well_formed. exact Hs.
Qed.

(** ** The compatibility flag *)

Lemma toLowerCase_ascii_idempotent (c : ascii) :
  toLowerCase_ascii (toLowerCase_ascii c) = toLowerCase_ascii c.
Proof.
  destruct c as [[] [] [] [] [] [] [] []]; reflexivity.
Qed.

Lemma toLowerCase_idempotent (v : string) :
  toLowerCase (toLowerCase v) = toLowerCase v.
Proof.
  induction v as [ | c v IH]; simpl.
  - reflexivity.
  - rewrite toLowerCase_ascii_idempotent, IH. reflexivity.
Qed.

Lemma toLowerCase_length (v : string) :
  String.length (toLowerCase v) = String.length v.
Proof.
  induction v as [ | c v IH]; simpl; [ reflexivity | rewrite IH; reflexivity ].
Qed.

(** X21.  The compatibility mode is on exactly when the flag, with its
    ASCII letters lower-cased, is "instagram": the case of the letters does
    not matter, lower-casing the flag beforehand changes nothing, and an
    absent or empty flag leaves the mode off. *)
Theorem compatibility_flag_ignores_case :
  forall v : string,
    (instagramCompatibilityEnabled (Some v) = true <->
     toLowerCase v = "instagram"%string) /\
    instagramCompatibilityEnabled (Some (toLowerCase v)) =
      instagramCompatibilityEnabled (Some v) /\
    instagramCompatibilityEnabled None = false /\
    instagramCompatibilityEnabled (Some ""%string) = false.
Proof.
  intros v.
  assert (E : forall w, instagramCompatibilityEnabled (Some w) = true <->
                        toLowerCase w = "instagram"%string).
  { intros w. unfold instagramCompatibilityEnabled, compatibilityMode.
    cbv zeta. destruct (String.eqb (toLowerCase w) "") eqn:Ee.
    - apply String.eqb_eq in Ee. rewrite Ee. split; discriminate.
    - apply String.eqb_eq. }
  split; [ apply E | ].
  split; [ | split; reflexivity ].
  destruct (instagramCompatibilityEnabled (Some v)) eqn:Ev.
  - apply E. rewrite toLowerCase_idempotent. apply E. exact Ev.
  - destruct (instagramCompatibilityEnabled (Some (toLowerCase v))) eqn:El;
      [ | reflexivity ].
    apply E in El. rewrite toLowerCase_idempotent in El.
    apply E in El. congruence.
Qed.

(** ** The size label *)

(** X23.  Once there is a completed rectangle, the size label shows it and
    a drag update does not change the label, although the working and live
    rectangles follow the drag; while there is none, the label follows the
    working rectangle the drag update writes. *)
Theorem renderedSize_prefers_completed :
  forall (compatibilityParam : option string) (s : State)
         (pixelCrop percentCrop : Rect.t) (frame : js Rect.t),
    (forall c : Rect.t,
       completedCrop s = val c ->
       renderedSize s = formatSize (val c) /\
       renderedSize
         (step compatibilityParam s (cropDragged pixelCrop percentCrop frame))
         = renderedSize s) /\
    (absent (completedCrop s) ->
     renderedSize
       (step compatibilityParam s (cropDragged pixelCrop percentCrop frame))
       = formatSize
           (currentRectangle
              (step compatibilityParam s
                 (cropDragged pixelCrop percentCrop frame)))).
Proof.
  intros compatibilityParam s pixelCrop percentCrop frame.
  destruct (handleCropChange_fields pixelCrop percentCrop frame s)
    as (Ec & _ & _ & Ed & Es & _).
  cbv zeta in Ec.
  unfold step. simpl handle. rewrite cleanup_same_source by exact Es.
  unfold renderedSize, currentRectangle. rewrite Ed. split.
  - intros c E. rewrite E. split; reflexivity.
  - intros Habs. destruct (completedCrop s); simpl in *;
      [ reflexivity | reflexivity | contradiction ].
Qed.

(** The completed rectangle 50 x 20 under a drag update of 30 x 30: the
    label stays the template with 50 and 20. *)
Lemma renderedSize_prefers_completed_witness :
  renderedSize
    (step None state_zero_live (cropDragged rect_30x30 rect_30x30 null))
  = renderedSize state_zero_live /\
  renderedSize state_zero_live = template_x 50 20.
Proof.
  destruct (renderedSize_prefers_completed None state_zero_live rect_30x30
              rect_30x30 null) as (H & _).
  destruct (H rect_50x20 eq_refl) as (E1 & E2).
  split; [ exact E2 | vm_compute; reflexivity ].
Defined.
